(** * Marketing event pipeline: ingestion, validation, publication, collection

    A shallow embedding of the gateway (webhook controller, webhook service,
    validation service, messaging repository), of the shared NATS service and
    of the collector (messaging repository, collector service), followed by
    the properties of the specification that concern them.

    JavaScript values are a data type, the zod schemas are terms of a small
    schema language interpreted by [parse], and effectful methods are
    computations in a state-and-exception monad over a [World] that holds the
    clock, the random source, the logs, the metric registry and the broker. *)

From Stdlib Require Import String Ascii List ZArith NArith Bool Lia Arith.
From Stdlib Require Import DecimalString DecimalN DecimalPos.
Import ListNotations.
Open Scope string_scope.

Set Implicit Arguments.
Set Warnings "-register-all".

(** ** JavaScript values *)

(** The values a JSON body or an in-memory test object can hold.  Objects are
    association lists in insertion order; a property read takes the first
    binding of the key.  Numbers are integers: the code only asks for their
    type, their truthiness and their text. *)
Inductive JsValue : Type :=
| JUndefined
| JNull
| JBool (b : bool)
| JNum (n : Z)
| JStr (s : string)
| JArr (items : list JsValue)
| JObj (props : list (string * JsValue)).

(** An [Error] object as the code reads it: [error.message], [error.code]
    (set on the errors of the JetStream API) and, through [stack] below,
    [error.stack].  Whatever is thrown is an [Error] object. *)
Record JsError : Type :=
  mkError { name : string; message : string; code : option Z }.

Definition Error (m : string) : JsError := mkError "Error" m None.
Definition TypeError (m : string) : JsError := mkError "TypeError" m None.
Definition SyntaxError (m : string) : JsError := mkError "SyntaxError" m None.
Definition BadRequestException (m : string) : JsError :=
  mkError "BadRequestException" m None.

(** [error.stack]: the header line of the trace; the frames that follow it
    are left out. *)
Definition stack (e : JsError) : string := name e ++ ": " ++ message e.

Fixpoint obj_get (props : list (string * JsValue)) (k : string) : JsValue :=
  match props with
  | [] => JUndefined
  | (k', v) :: rest => if String.eqb k k' then v else obj_get rest k
  end.

Fixpoint obj_has (props : list (string * JsValue)) (k : string) : bool :=
  match props with
  | [] => false
  | (k', _) :: rest => String.eqb k k' || obj_has rest k
  end.

(** [o[k] = v] on an object: an existing key keeps its place. *)
Fixpoint obj_set (props : list (string * JsValue)) (k : string) (v : JsValue)
  : list (string * JsValue) :=
  match props with
  | [] => [(k, v)]
  | (k', v') :: rest =>
      if String.eqb k k' then (k', v) :: rest else (k', v') :: obj_set rest k v
  end.

Definition is_nullish (v : JsValue) : bool :=
  match v with
  | JUndefined | JNull => true
  | _ => false
  end.

(** [v.k] for a value that is neither [null] nor [undefined]: own properties
    of objects; the keys read by the code are no property of a string, a
    number, a boolean or an array. *)
Definition prop (v : JsValue) (k : string) : JsValue :=
  match v with
  | JObj props => obj_get props k
  | _ => JUndefined
  end.

(** [v.k]: a [TypeError] on [null] and [undefined]. *)
Definition member (v : JsValue) (k : string) : JsValue + JsError :=
  if is_nullish v
  then inr (TypeError ("Cannot read properties of null or undefined (reading '" ++ k ++ "')"))
  else inl (prop v k).

(** [v?.k] *)
Definition opt_member (v : JsValue) (k : string) : JsValue :=
  if is_nullish v then JUndefined else prop v k.

(** Truthiness, as [||] and [if] test it. *)
Definition truthy (v : JsValue) : bool :=
  match v with
  | JUndefined | JNull => false
  | JBool b => b
  | JNum n => negb (Z.eqb n 0)
  | JStr s => negb (String.eqb s "")
  | JArr _ | JObj _ => true
  end.

(** [a || b] *)
Definition js_or (a b : JsValue) : JsValue := if truthy a then a else b.

(** [{...a, k: v}] on top of the properties already spread. *)
Definition spread (v : JsValue) : list (string * JsValue) :=
  match v with
  | JObj props => props
  | _ => []
  end.

(** ** Text *)

Definition string_of_Z (n : Z) : string := NilZero.string_of_int (Z.to_int n).
Definition string_of_N (n : N) : string := NilZero.string_of_uint (N.to_uint n).

Fixpoint join (sep : string) (parts : list string) : string :=
  match parts with
  | [] => ""
  | [p] => p
  | p :: rest => p ++ sep ++ join sep rest
  end.

Fixpoint contains (needle hay : string) : bool :=
  String.prefix needle hay ||
  match hay with
  | EmptyString => false
  | String _ rest => contains needle rest
  end.

Fixpoint forallb_string (p : ascii -> bool) (s : string) : bool :=
  match s with
  | EmptyString => true
  | String c rest => p c && forallb_string p rest
  end.

Definition is_digit (c : ascii) : bool :=
  let n := nat_of_ascii c in ((48 <=? n) && (n <=? 57))%nat.

Definition is_lower_alnum (c : ascii) : bool :=
  let n := nat_of_ascii c in
  (((48 <=? n) && (n <=? 57)) || ((97 <=? n) && (n <=? 122)))%nat.

(** ** [JSON.stringify] *)

Definition dquote : string := String (ascii_of_nat 34) "".
Definition backslash : string := String (ascii_of_nat 92) "".
Definition newline : string := String (ascii_of_nat 10) "".

Definition hex_digit (n : nat) : string :=
  String.substring n 1 "0123456789abcdef".

Definition escape_char (c : ascii) : string :=
  let n := nat_of_ascii c in
  if (n =? 34)%nat then backslash ++ dquote
  else if (n =? 92)%nat then backslash ++ backslash
  else if (n =? 8)%nat then backslash ++ "b"
  else if (n =? 9)%nat then backslash ++ "t"
  else if (n =? 10)%nat then backslash ++ "n"
  else if (n =? 12)%nat then backslash ++ "f"
  else if (n =? 13)%nat then backslash ++ "r"
  else if (n <? 32)%nat then backslash ++ "u00" ++ hex_digit (n / 16) ++ hex_digit (n mod 16)
  else String c "".

Fixpoint escape (s : string) : string :=
  match s with
  | EmptyString => ""
  | String c rest => escape_char c ++ escape rest
  end.

Definition quote (s : string) : string := dquote ++ escape s ++ dquote.

(** Brackets around the members, one per line when a [gap] is given. *)
Definition wrap (opening closing gap ind : string) (members : list string)
  : string :=
  match members with
  | [] => opening ++ closing
  | _ =>
      if String.eqb gap ""
      then opening ++ join "," members ++ closing
      else
        let step := ind ++ gap in
        opening ++ newline ++ step
          ++ join ("," ++ newline ++ step) members
          ++ newline ++ ind ++ closing
  end.

(** The text of a value that is not [undefined]; [gap] is the third argument
    of [JSON.stringify] as a string of spaces and [ind] the indentation
    reached.  An [undefined] array item prints as [null]; an [undefined]
    property is left out. *)
Fixpoint serialize (gap ind : string) (v : JsValue) : string :=
  match v with
  | JUndefined | JNull => "null"
  | JBool true => "true"
  | JBool false => "false"
  | JNum n => string_of_Z n
  | JStr s => quote s
  | JArr items =>
      wrap "[" "]" gap ind (map (serialize gap (ind ++ gap)) items)
  | JObj props =>
      wrap "{" "}" gap ind
        ((fix members (ps : list (string * JsValue)) : list string :=
            match ps with
            | [] => []
            | (_, JUndefined) :: rest => members rest
            | (k, x) :: rest =>
                (quote k ++ (if String.eqb gap "" then ":" else ": ")
                   ++ serialize gap (ind ++ gap) x) :: members rest
            end) props)
  end.

(** [JSON.stringify(v)]: [undefined] for [undefined], else a string. *)
Definition JSON_stringify (v : JsValue) : JsValue :=
  match v with
  | JUndefined => JUndefined
  | _ => JStr (serialize "" "" v)
  end.

(** [JSON.stringify(v, null, 2)] *)
Definition JSON_stringify_pretty (v : JsValue) : string :=
  serialize "  " "" v.

(** ** The zod schema language

    zod is a library the validation service imports.  This is the part of
    it the service uses, after the parser of zod 3: [z.string()],
    [z.number()], [z.any()], [z.literal(s)], [z.enum([...])],
    [z.object({...})] (which by default strips the keys it does not
    declare) and [z.union([...])]. *)

Inductive ZodType : Type :=
| ZString
| ZNumber
| ZAny
| ZLiteral (value : string)
| ZEnum (options : list string)
| ZObject (shape : list (string * ZodType))
| ZUnion (options : list ZodType).

Definition Path := list string.

(** The issues these schemas can raise, with the data zod attaches. *)
Inductive ZodIssue : Type :=
| invalid_type (expected received : string) (path : Path)
| invalid_literal (received : JsValue) (expected : string) (path : Path)
| invalid_enum_value (received : string) (options : list string) (path : Path)
| invalid_union (unionErrors : list (list ZodIssue)) (path : Path).

Inductive ParseReturn : Type :=
| OK (value : JsValue)
| INVALID (issues : list ZodIssue).

(** zod's [getParsedType] *)
Definition getParsedType (v : JsValue) : string :=
  match v with
  | JUndefined => "undefined"
  | JNull => "null"
  | JBool _ => "boolean"
  | JNum _ => "number"
  | JStr _ => "string"
  | JArr _ => "array"
  | JObj _ => "object"
  end.

(** zod's [util.joinValues] on strings: ['a' | 'b'] *)
Definition joinValues (values : list string) : string :=
  join " | " (map (fun v => "'" ++ v ++ "'") values).

Section Composite.
Variable parse_at : ZodType -> Path -> JsValue -> ParseReturn.

(** [ZodObject._parse] over the keys of the shape, in the order of the
    shape: every key is parsed (a missing one as [undefined]), the issues
    of all keys are collected, and a key enters the result when its value
    is defined or the input has the key.  Keys outside the shape are not
    looked at. *)
Fixpoint parse_shape (shape : list (string * ZodType)) (path : Path)
         (data : list (string * JsValue))
  : list (string * JsValue) + list ZodIssue :=
  match shape with
  | [] => inl []
  | (key, validator) :: rest =>
      match parse_at validator (path ++ [key])%list (obj_get data key),
            parse_shape rest path data with
      | OK value, inl pairs =>
          inl (match value with
               | JUndefined =>
                   if obj_has data key then (key, value) :: pairs else pairs
               | _ => (key, value) :: pairs
               end)
      | OK _, inr issues => inr issues
      | INVALID issues, inl _ => inr issues
      | INVALID issues, inr more => inr (issues ++ more)%list
      end
  end.

(** [ZodUnion._parse]: the first option that accepts wins; otherwise the
    issues of every option, in order. *)
Fixpoint parse_options (options : list ZodType) (path : Path) (v : JsValue)
  : JsValue + list (list ZodIssue) :=
  match options with
  | [] => inr []
  | option :: rest =>
      match parse_at option path v with
      | OK value => inl value
      | INVALID issues =>
          match parse_options rest path v with
          | inl value => inl value
          | inr errors => inr (issues :: errors)
          end
      end
  end.
End Composite.

Fixpoint parse_at (t : ZodType) (path : Path) (v : JsValue) {struct t}
  : ParseReturn :=
  match t with
  | ZString =>
      match v with
      | JStr _ => OK v
      | _ => INVALID [invalid_type "string" (getParsedType v) path]
      end
  | ZNumber =>
      match v with
      | JNum _ => OK v
      | _ => INVALID [invalid_type "number" (getParsedType v) path]
      end
  | ZAny => OK v
  | ZLiteral value =>
      match v with
      | JStr s =>
          if String.eqb s value then OK v
          else INVALID [invalid_literal v value path]
      | _ => INVALID [invalid_literal v value path]
      end
  | ZEnum options =>
      match v with
      | JStr s =>
          if existsb (String.eqb s) options then OK v
          else INVALID [invalid_enum_value s options path]
      | _ => INVALID [invalid_type (joinValues options) (getParsedType v) path]
      end
  | ZObject shape =>
      match v with
      | JObj props =>
          match parse_shape parse_at shape path props with
          | inl pairs => OK (JObj pairs)
          | inr issues => INVALID issues
          end
      | _ => INVALID [invalid_type "object" (getParsedType v) path]
      end
  | ZUnion options =>
      match parse_options parse_at options path v with
      | inl value => OK value
      | inr errors => INVALID [invalid_union errors path]
      end
  end.

(** *** The text of a [ZodError] *)

Definition path_value (path : Path) : JsValue := JArr (map JStr path).

Definition invalid_type_message (expected received : string) : string :=
  if String.eqb received "undefined" then "Required"
  else "Expected " ++ expected ++ ", received " ++ received.

(** An issue as the object zod builds: the issue data, then [path], then
    [message]. *)
Fixpoint issue_value (i : ZodIssue) : JsValue :=
  match i with
  | invalid_type expected received path =>
      JObj [("code", JStr "invalid_type"); ("expected", JStr expected);
            ("received", JStr received); ("path", path_value path);
            ("message", JStr (invalid_type_message expected received))]
  | invalid_literal received expected path =>
      JObj [("received", received); ("code", JStr "invalid_literal");
            ("expected", JStr expected); ("path", path_value path);
            ("message",
             JStr ("Invalid literal value, expected " ++ quote expected))]
  | invalid_enum_value received options path =>
      JObj [("received", JStr received); ("code", JStr "invalid_enum_value");
            ("options", JArr (map JStr options)); ("path", path_value path);
            ("message",
             JStr ("Invalid enum value. Expected " ++ joinValues options
                     ++ ", received '" ++ received ++ "'"))]
  | invalid_union unionErrors path =>
      JObj [("code", JStr "invalid_union");
            ("unionErrors",
             JArr (map (fun issues =>
                          JObj [("issues", JArr (map issue_value issues));
                                ("name", JStr "ZodError")])
                       unionErrors));
            ("path", path_value path); ("message", JStr "Invalid input")]
  end.

(** [ZodError.message]: [JSON.stringify(this.issues, replacer, 2)] *)
Definition ZodError (issues : list ZodIssue) : JsError :=
  mkError "ZodError" (JSON_stringify_pretty (JArr (map issue_value issues)))
          None.

(** [schema.parse(data)]: the parsed value, or a thrown [ZodError]. *)
Definition parse (schema : ZodType) (data : JsValue) : JsValue + JsError :=
  match parse_at schema [] data with
  | OK value => inl value
  | INVALID issues => inr (ZodError issues)
  end.

(** ** The event schemas (gateway, validation.service.ts) *)

Definition FacebookEventSchema : ZodType :=
  ZObject
    [("eventId", ZString);
     ("timestamp", ZString);
     ("source", ZLiteral "facebook");
     ("funnelStage", ZEnum ["top"; "bottom"]);
     ("eventType", ZString);
     ("data",
      ZObject
        [("user",
          ZObject
            [("userId", ZString);
             ("name", ZString);
             ("age", ZNumber);
             ("gender", ZEnum ["male"; "female"; "non-binary"]);
             ("location",
              ZObject [("country", ZString); ("city", ZString)])]);
         ("engagement", ZAny)])].

Definition TiktokEventSchema : ZodType :=
  ZObject
    [("eventId", ZString);
     ("timestamp", ZString);
     ("source", ZLiteral "tiktok");
     ("funnelStage", ZEnum ["top"; "bottom"]);
     ("eventType", ZString);
     ("data",
      ZObject
        [("user",
          ZObject
            [("userId", ZString);
             ("username", ZString);
             ("followers", ZNumber)]);
         ("engagement", ZAny)])].

Definition EventSchema : ZodType :=
  ZUnion [FacebookEventSchema; TiktokEventSchema].

(** The fixtures of the test suites (test-utils.ts). *)
Definition mockFacebookEvent : JsValue :=
  JObj
    [("eventId", JStr "fb-event-123");
     ("timestamp", JStr "2024-01-15T10:00:00Z");
     ("source", JStr "facebook");
     ("funnelStage", JStr "top");
     ("eventType", JStr "ad.view");
     ("data",
      JObj
        [("user",
          JObj
            [("userId", JStr "user-123");
             ("name", JStr "John Doe");
             ("age", JNum 28);
             ("gender", JStr "male");
             ("location",
              JObj [("country", JStr "US"); ("city", JStr "New York")])]);
         ("engagement",
          JObj
            [("actionTime", JStr "2024-01-15T10:00:00Z");
             ("referrer", JStr "newsfeed");
             ("videoId", JStr "video-123")])])].

Definition mockTiktokEvent : JsValue :=
  JObj
    [("eventId", JStr "ttk-event-123");
     ("timestamp", JStr "2024-01-15T10:00:00Z");
     ("source", JStr "tiktok");
     ("funnelStage", JStr "bottom");
     ("eventType", JStr "purchase");
     ("data",
      JObj
        [("user",
          JObj
            [("userId", JStr "user-456");
             ("username", JStr "johndoe_ttk");
             ("followers", JNum 1500)]);
         ("engagement",
          JObj
            [("actionTime", JStr "2024-01-15T10:00:00Z");
             ("profileId", JStr "profile-456");
             ("purchasedItem", JStr "Product A");
             ("purchaseAmount", JStr "29.99")])])].

(** ** The world and its computations *)

Inductive Level : Type := LOG | ERROR | WARN | DEBUG.

(** A call of a logger method: the logger's service name, the message, the
    trace (for [error]) and the context object.  The timestamp and the
    logger's own correlation id that [formatMessage] adds are left out. *)
Record LogEntry : Type :=
  mkLog { level : Level; service : string; text : string;
          trace : option string; context : list (string * JsValue) }.

Inductive MetricType : Type := accepted | processed | failed.

(** What reaches the prom-client registry: a counter increment, or an
    observation of the duration histogram (kept in milliseconds; the code
    divides by 1000 on the way in). *)
Inductive Sample : Type :=
| Counted (type : MetricType) (value : Z) (labels : list (string * JsValue))
| Observed (duration : Z) (labels : list (string * JsValue)).

Inductive ConnectionStatus : Type := Open | Closed.

Record World : Type :=
  mkWorld {
      (** [Date.now()] at the n-th reading of the clock by the code below
          (the readings the loggers and the decorator take for their
          timestamps are not counted) *)
      clock_at : nat -> N;
      clock_reads : nat;
      (** [Date.prototype.toISOString], on epoch milliseconds *)
      toISOString : N -> string;
      (** the n-th draw of [Math.random()], as the base-36 digits that
          [toString(36)] prints after [0.] (none for the draw 0) *)
      draw_at : nat -> list nat;
      draws : nat;
      (** [process.env.COLLECTOR_TYPE] *)
      COLLECTOR_TYPE : option string;
      log : list LogEntry;
      samples : list Sample;
      (** [NatsService.connection]: [null], or a connection and its status *)
      connection : option ConnectionStatus;
      (** [NatsService.jetStream !== null] *)
      jetStream : bool;
      (** the answer of the JetStream API to [streams.add] *)
      streams_add : string -> list string -> option JsError;
      streams : list (string * list string);
      (** messages handed to the broker: subject and payload *)
      published : list (string * string);
      (** subscriptions taken on the connection: subject and options *)
      subscriptions : list (string * JsValue);
      (** rows written by the persistence sink: event and correlation id *)
      database : list (JsValue * JsValue)
    }.

Definition set_clock_reads (n : nat) (w : World) : World :=
  mkWorld (clock_at w) n (toISOString w) (draw_at w) (draws w)
          (COLLECTOR_TYPE w) (log w) (samples w) (connection w) (jetStream w)
          (streams_add w) (streams w) (published w) (subscriptions w)
          (database w).

Definition set_draws (n : nat) (w : World) : World :=
  mkWorld (clock_at w) (clock_reads w) (toISOString w) (draw_at w) n
          (COLLECTOR_TYPE w) (log w) (samples w) (connection w) (jetStream w)
          (streams_add w) (streams w) (published w) (subscriptions w)
          (database w).

Definition set_log (l : list LogEntry) (w : World) : World :=
  mkWorld (clock_at w) (clock_reads w) (toISOString w) (draw_at w) (draws w)
          (COLLECTOR_TYPE w) l (samples w) (connection w) (jetStream w)
          (streams_add w) (streams w) (published w) (subscriptions w)
          (database w).

Definition set_samples (l : list Sample) (w : World) : World :=
  mkWorld (clock_at w) (clock_reads w) (toISOString w) (draw_at w) (draws w)
          (COLLECTOR_TYPE w) (log w) l (connection w) (jetStream w)
          (streams_add w) (streams w) (published w) (subscriptions w)
          (database w).

Definition set_streams (l : list (string * list string)) (w : World) : World :=
  mkWorld (clock_at w) (clock_reads w) (toISOString w) (draw_at w) (draws w)
          (COLLECTOR_TYPE w) (log w) (samples w) (connection w) (jetStream w)
          (streams_add w) l (published w) (subscriptions w) (database w).

Definition set_published (l : list (string * string)) (w : World) : World :=
  mkWorld (clock_at w) (clock_reads w) (toISOString w) (draw_at w) (draws w)
          (COLLECTOR_TYPE w) (log w) (samples w) (connection w) (jetStream w)
          (streams_add w) (streams w) l (subscriptions w) (database w).

Definition set_subscriptions (l : list (string * JsValue)) (w : World)
  : World :=
  mkWorld (clock_at w) (clock_reads w) (toISOString w) (draw_at w) (draws w)
          (COLLECTOR_TYPE w) (log w) (samples w) (connection w) (jetStream w)
          (streams_add w) (streams w) (published w) l (database w).

Definition set_database (l : list (JsValue * JsValue)) (w : World) : World :=
  mkWorld (clock_at w) (clock_reads w) (toISOString w) (draw_at w) (draws w)
          (COLLECTOR_TYPE w) (log w) (samples w) (connection w) (jetStream w)
          (streams_add w) (streams w) (published w) (subscriptions w) l.

(** How a call ends: with a value, or with a thrown error.  The effects made
    before a throw stay. *)
Inductive Completion (A : Type) : Type :=
| Return (a : A)
| Throw (e : JsError).
Arguments Throw {A} e.

Definition M (A : Type) : Type := World -> Completion A * World.

Definition ret {A} (a : A) : M A := fun w => (Return a, w).
Definition throw {A} (e : JsError) : M A := fun w => (Throw e, w).

Definition bind {A B} (c : M A) (k : A -> M B) : M B :=
  fun w =>
    match c w with
    | (Return a, w') => k a w'
    | (Throw e, w') => (Throw e, w')
    end.

(** [try { body } catch (error) { handler }] *)
Definition try_catch {A} (body : M A) (handler : JsError -> M A) : M A :=
  fun w =>
    match body w with
    | (Return a, w') => (Return a, w')
    | (Throw e, w') => handler e w'
    end.

Declare Scope js_scope.
Delimit Scope js_scope with js.
Notation "x <- c ;; k" := (bind c (fun x => k))
  (at level 61, c at next level, right associativity) : js_scope.
Notation "c ;; k" := (bind c (fun _ => k))
  (at level 61, right associativity) : js_scope.
Open Scope js_scope.

Definition lift {A} (r : A + JsError) : M A :=
  match r with
  | inl a => ret a
  | inr e => throw e
  end.

(** [v.k] as a step of a computation *)
Definition get (v : JsValue) (k : string) : M JsValue := lift (member v k).

Definition modify (f : World -> World) : M unit := fun w => (Return tt, f w).
Definition read {A} (f : World -> A) : M A := fun w => (Return (f w), w).

(** *** Clock and random source *)

Definition Date_now : M N :=
  fun w => (Return (clock_at w (clock_reads w)),
            set_clock_reads (S (clock_reads w)) w).

(** [new Date().toISOString()] *)
Definition new_Date_toISOString : M string :=
  now <- Date_now ;; iso <- read toISOString ;; ret (iso now).

Definition Math_random : M (list nat) :=
  fun w => (Return (draw_at w (draws w)), set_draws (S (draws w)) w).

Definition digit36 (d : nat) : string :=
  String.substring d 1 "0123456789abcdefghijklmnopqrstuvwxyz".

(** [x.toString(36)] for a draw [x] of [Math.random()] *)
Definition toString36 (digits : list nat) : string :=
  match digits with
  | [] => "0"
  | _ => "0." ++ String.concat "" (map digit36 digits)
  end.

(** [s.substr(start, length)] *)
Definition substr (start length : nat) (s : string) : string :=
  String.substring start length s.

(** *** Loggers *)

Definition logger_log (svc msg : string) (ctx : list (string * JsValue))
  : M unit :=
  modify (fun w => set_log (log w ++ [mkLog LOG svc msg None ctx]) w).

Definition logger_error (svc msg : string) (trace : string)
           (ctx : list (string * JsValue)) : M unit :=
  modify (fun w => set_log (log w ++ [mkLog ERROR svc msg (Some trace) ctx]) w).

Definition logger_warn (svc msg : string) (ctx : list (string * JsValue))
  : M unit :=
  modify (fun w => set_log (log w ++ [mkLog WARN svc msg None ctx]) w).

Definition logger_debug (svc msg : string) (ctx : list (string * JsValue))
  : M unit :=
  modify (fun w => set_log (log w ++ [mkLog DEBUG svc msg None ctx]) w).

(** The [@LogMethod()] decorator (shared logger): a line on entry, a line on
    completion or failure, and the method's own outcome.  Of the context only
    the method name and the argument count are kept. *)
Definition LogMethod {A} (cls method : string) (args : nat) (original : M A)
  : M A :=
  logger_log cls ("Method " ++ method ++ " called")
             [("method", JStr method); ("args", JNum (Z.of_nat args))] ;;
  try_catch
    (result <- original ;;
     logger_log cls ("Method " ++ method ++ " completed successfully")
                [("method", JStr method)] ;;
     ret result)
    (fun error =>
       logger_error cls ("Method " ++ method ++ " failed") (stack error)
                    [("method", JStr method);
                     ("error", JStr (message error))] ;;
       throw error).

(** The string a template literal puts in place of [${v}]. *)
Fixpoint js_string (v : JsValue) : string :=
  match v with
  | JUndefined => "undefined"
  | JNull => "null"
  | JBool true => "true"
  | JBool false => "false"
  | JNum n => string_of_Z n
  | JStr s => s
  | JArr items =>
      join ","
           (map (fun item => if is_nullish item then "" else js_string item)
                items)
  | JObj _ => "[object Object]"
  end.

(** ** The shared NATS service (nats.service.ts) *)

Module NatsService.

Definition svc : string := "NatsService".

Definition getConnection : M ConnectionStatus :=
  c <- read connection ;;
  match c with
  | None => throw (Error "NATS connection not established")
  | Some status => ret status
  end.

Definition getJetStream : M unit :=
  js <- read jetStream ;;
  if js then ret tt else throw (Error "JetStream not available").

(** [connection.publish(subject, payload)] of the client library: refused
    on a closed connection. *)
Definition connection_publish (status : ConnectionStatus)
           (subject payload : string) : M unit :=
  match status with
  | Closed => throw (mkError "NatsError" "CONNECTION_CLOSED" None)
  | Open => modify (fun w => set_published (published w ++ [(subject, payload)]) w)
  end.

(** [connection.subscribe(subject, options)] of the client library. *)
Definition connection_subscribe (status : ConnectionStatus)
           (subject : string) (options : JsValue) : M unit :=
  match status with
  | Closed => throw (mkError "NatsError" "CONNECTION_CLOSED" None)
  | Open =>
      modify (fun w =>
                set_subscriptions (subscriptions w ++ [(subject, options)]) w)
  end.

Definition publishToStream (streamName subject : string) (data : JsValue)
  : M unit :=
  conn <- getConnection ;;
  let payload := JSON_stringify data in
  try_catch
    (connection_publish conn subject
                        (match payload with JStr text => text | _ => "" end) ;;
     logger_debug svc ("Published to stream " ++ streamName
                         ++ " (" ++ subject ++ ")") [])
    (fun error =>
       logger_error svc ("Failed to publish to stream " ++ streamName)
                    (stack error) [] ;;
       throw error).

(** The registration half of [subscribe]: the subscription is taken on the
    connection and recorded.  The loop it starts is [message_loop]. *)
Definition subscribe (subject : string) (options : JsValue) : M unit :=
  conn <- getConnection ;;
  try_catch
    (connection_subscribe conn subject options ;;
     logger_log svc ("Subscribed to " ++ subject) [])
    (fun error =>
       logger_error svc ("Failed to subscribe to " ++ subject)
                    (stack error) [] ;;
       throw error).

(** What a subscription yields: bytes that decode to JSON text of a value,
    or to text that [JSON.parse] refuses. *)
Inductive Msg : Type :=
| Json (data : JsValue)
| Garbage (text : string).

Definition JSON_parse (m : Msg) : M JsValue :=
  match m with
  | Json data => ret data
  | Garbage text => throw (SyntaxError ("Unexpected token in JSON: " ++ text))
  end.

(** The body of [for await (const msg of subscription)] in [subscribe]. *)
Definition on_message (subject : string) (callback : JsValue -> M unit)
           (msg : Msg) : M unit :=
  try_catch
    (data <- JSON_parse msg ;; callback data)
    (fun error =>
       logger_error svc ("Error processing message from " ++ subject)
                    (stack error) []).

(** The loop over the messages the subscription yields, one at a time; an
    error that left the body would end it. *)
Fixpoint message_loop (subject : string) (callback : JsValue -> M unit)
         (msgs : list Msg) : M unit :=
  match msgs with
  | [] => ret tt
  | msg :: rest =>
      on_message subject callback msg ;;
      message_loop subject callback rest
  end.

Definition createStream (streamName : string) (subjects : list string)
  : M unit :=
  getJetStream ;;
  answer <- read (fun w => streams_add w streamName subjects) ;;
  match answer with
  | None =>
      modify (fun w => set_streams (streams w ++ [(streamName, subjects)]) w) ;;
      logger_log svc ("Created stream: " ++ streamName) []
  | Some error =>
      if match code error with
         | Some c => Z.eqb c 10058
         | None => false
         end
      then logger_debug svc ("Stream " ++ streamName ++ " already exists") []
      else
        logger_error svc ("Failed to create stream " ++ streamName)
                     (stack error) [] ;;
        throw error
  end.

Definition ensureStream (streamName : string) (subjects : list string)
  : M unit :=
  try_catch
    (createStream streamName subjects)
    (fun error =>
       logger_debug svc ("Stream " ++ streamName ++ " might already exist")
                    [("context", JStr (message error))]).

End NatsService.

(** ** Gateway *)

(** *** Metrics service (gateway/services/metrics.service.ts)

    Each call passes label names that the counter declares, so prom-client
    takes the sample and the [catch] of the method is never entered. *)
Definition recordMetric (type : MetricType) (value : Z)
           (labels : list (string * JsValue)) : M unit :=
  modify (fun w => set_samples (samples w ++ [Counted type value labels]) w).

Definition recordProcessingDuration (duration : Z)
           (labels : list (string * JsValue)) : M unit :=
  modify (fun w => set_samples (samples w ++ [Observed duration labels]) w).

(** *** Validation service (gateway/services/validation.service.ts) *)
Module ValidationService.

Definition svc : string := "ValidationService".

Definition validateEvent (eventData : JsValue) : M JsValue :=
  try_catch
    (validatedEvent <- lift (parse EventSchema eventData) ;;
     eventId <- get validatedEvent "eventId" ;;
     source <- get validatedEvent "source" ;;
     eventType <- get validatedEvent "eventType" ;;
     logger_log svc "Event validation successful"
                [("eventId", eventId); ("source", source);
                 ("eventType", eventType)] ;;
     ret validatedEvent)
    (fun error =>
       logger_error svc "Event validation failed" (message error)
                    [("eventData", JSON_stringify eventData)] ;;
       throw (BadRequestException
                ("Invalid event format: " ++ message error))).

Definition validateFacebookEvent (eventData : JsValue) : M JsValue :=
  try_catch
    (lift (parse FacebookEventSchema eventData))
    (fun error =>
       throw (BadRequestException
                ("Invalid Facebook event format: " ++ message error))).

Definition validateTiktokEvent (eventData : JsValue) : M JsValue :=
  try_catch
    (lift (parse TiktokEventSchema eventData))
    (fun error =>
       throw (BadRequestException
                ("Invalid TikTok event format: " ++ message error))).

End ValidationService.

(** [gateway-${Date.now()}-${Math.random().toString(36).substr(2, 9)}], the
    private method of both the messaging repository and the controller. *)
Definition generateCorrelationId : M string :=
  now <- Date_now ;;
  draw <- Math_random ;;
  ret ("gateway-" ++ string_of_N now ++ "-" ++ substr 2 9 (toString36 draw)).

(** [correlationId || this.generateCorrelationId()] *)
Definition correlationId_or_generated (correlationId : JsValue) : M JsValue :=
  if truthy correlationId then ret correlationId
  else id <- generateCorrelationId ;; ret (JStr id).

(** *** Messaging repository of the gateway *)
Module GatewayMessagingRepository.

Definition svc : string := "MessagingRepository".

Definition buildSubject (event : JsValue) : M string :=
  source <- get event "source" ;;
  funnelStage <- get event "funnelStage" ;;
  ret ("events." ++ js_string source ++ "." ++ js_string funnelStage).

(** [{...event, correlationId: c, receivedAt: r}] *)
Definition envelope (event c r : JsValue) : JsValue :=
  JObj (obj_set (obj_set (spread event) "correlationId" c) "receivedAt" r).

Definition publishEvent (event correlationId : JsValue) : M unit :=
  LogMethod svc "publishEvent" 2
    (try_catch
       (subject <- buildSubject event ;;
        eventId <- get event "eventId" ;;
        source <- get event "source" ;;
        eventType <- get event "eventType" ;;
        logger_log svc "Publishing event to NATS stream"
                   [("correlationId", correlationId); ("eventId", eventId);
                    ("subject", JStr subject); ("source", source);
                    ("eventType", eventType)] ;;
        c <- correlationId_or_generated correlationId ;;
        receivedAt <- new_Date_toISOString ;;
        NatsService.publishToStream "marketing-events" subject
          (envelope event c (JStr receivedAt)) ;;
        eventId <- get event "eventId" ;;
        logger_log svc "Event published to stream successfully"
                   [("correlationId", correlationId); ("eventId", eventId);
                    ("subject", JStr subject)])
       (fun error =>
          eventId <- get event "eventId" ;;
          logger_error svc "Failed to publish event to stream" (stack error)
                       [("correlationId", correlationId);
                        ("eventId", eventId);
                        ("error", JStr (message error))] ;;
          throw error)).

End GatewayMessagingRepository.

(** *** Webhook service (gateway/services/webhook.service.ts) *)
Module WebhookService.

Definition svc : string := "WebhookService".

Definition processEvent (eventData correlationId : JsValue) : M JsValue :=
  LogMethod svc "processEvent" 2
    (startTime <- Date_now ;;
     try_catch
       (event <- ValidationService.validateEvent eventData ;;
        source <- get event "source" ;;
        eventType <- get event "eventType" ;;
        funnelStage <- get event "funnelStage" ;;
        recordMetric accepted 1
                     [("source", source); ("event_type", eventType);
                      ("funnel_stage", funnelStage)] ;;
        GatewayMessagingRepository.publishEvent event correlationId ;;
        recordMetric processed 1
                     [("source", source); ("event_type", eventType);
                      ("funnel_stage", funnelStage)] ;;
        finished <- Date_now ;;
        let duration := (Z.of_N finished - Z.of_N startTime)%Z in
        recordProcessingDuration duration
                     [("source", source); ("event_type", eventType)] ;;
        eventId <- get event "eventId" ;;
        logger_log svc "Event processed successfully"
                   [("correlationId", correlationId); ("eventId", eventId);
                    ("source", source); ("eventType", eventType)] ;;
        ret (JObj [("success", JBool true); ("eventId", eventId)]))
       (fun error =>
          recordMetric failed 1
                       [("source",
                         js_or (opt_member eventData "source") (JStr "unknown"));
                        ("event_type",
                         js_or (opt_member eventData "eventType")
                               (JStr "unknown"));
                        ("error", JStr (message error))] ;;
          logger_error svc "Failed to process event" (stack error)
                       [("correlationId", correlationId);
                        ("error", JStr (message error))] ;;
          throw error)).

End WebhookService.

(** *** Webhook controller (gateway/webhook.controller.ts) *)
Module WebhookController.

Definition svc : string := "WebhookController".

Definition receiveWebhook (body correlationId : JsValue) : M JsValue :=
  LogMethod svc "receiveWebhook" 2
    (try_catch
       (result <- WebhookService.processEvent body correlationId ;;
        eventId <- get result "eventId" ;;
        logger_log svc "Webhook processed successfully"
                   [("eventId", eventId); ("correlationId", correlationId)] ;;
        success <- get result "success" ;;
        eventId <- get result "eventId" ;;
        c <- correlationId_or_generated correlationId ;;
        ret (JObj [("success", success); ("eventId", eventId);
                   ("correlationId", c)]))
       (fun error =>
          logger_error svc "Failed to process webhook" (stack error)
                       [("correlationId", correlationId)] ;;
          throw error)).

End WebhookController.

(** ** Collector *)

(** *** Messaging repository of the collector
        (collectors/repositories/messaging.repository.ts) *)
Module CollectorMessagingRepository.

Definition svc : string := "MessagingRepository".

Definition initializeStreams (subjects : list string) : M unit :=
  LogMethod svc "initializeStreams" 1
    (try_catch
       (logger_log svc "Initializing NATS streams"
                   [("subjects", JArr (map JStr subjects))] ;;
        NatsService.ensureStream "marketing-events" subjects ;;
        logger_log svc "NATS streams initialized successfully" [])
       (fun error =>
          logger_error svc "Failed to initialize streams" (stack error) [] ;;
          throw error)).

(** The function [subscribe] hands to the NATS service: the handler is
    called inside a [try] whose [catch] logs and does not rethrow. *)
Definition callback (subject : string)
           (handler : JsValue -> JsValue -> M unit) (data : JsValue)
  : M unit :=
  try_catch
    (correlationId <- get data "correlationId" ;;
     eventId <- get data "eventId" ;;
     logger_log svc "Received event from stream"
                [("subject", JStr subject); ("correlationId", correlationId);
                 ("eventId", eventId)] ;;
     handler data correlationId)
    (fun error =>
       logger_error svc "Failed to process received event" (stack error)
                    [("subject", JStr subject);
                     ("data", JSON_stringify data)]).

(** [subscribe(subject, durableName, handler)]: the registration, under
    the queue group [durableName].  The messages then go through
    [NatsService.message_loop subject (callback subject handler)]. *)
Definition subscribe (subject durableName : string) : M unit :=
  LogMethod svc "subscribe" 3
    (try_catch
       (logger_log svc "Setting up subscription"
                   [("subject", JStr subject);
                    ("durableName", JStr durableName)] ;;
        NatsService.subscribe subject (JObj [("queue", JStr durableName)]) ;;
        logger_log svc "Subscription established"
                   [("subject", JStr subject);
                    ("durableName", JStr durableName)])
       (fun error =>
          logger_error svc "Failed to set up subscription" (stack error)
                       [("subject", JStr subject);
                        ("durableName", JStr durableName)] ;;
          throw error)).

(** The subscription at work on the messages it yields. *)
Definition consume (subject : string)
           (handler : JsValue -> JsValue -> M unit)
           (msgs : list NatsService.Msg) : M unit :=
  NatsService.message_loop subject (callback subject handler) msgs.

End CollectorMessagingRepository.

(** [process.env.COLLECTOR_TYPE || 'unknown'] *)
Definition collectorType (w : World) : string :=
  js_string (js_or (match COLLECTOR_TYPE w with
                    | Some s => JStr s
                    | None => JUndefined
                    end) (JStr "unknown")).

Section Collector.

(** [EventRepository.saveEvent(event, correlationId)]: the write to the
    database through Prisma, which may throw. *)
Variable saveEvent : JsValue -> JsValue -> M unit.

(** *** Event processing service
        (collectors/services/event-processing.service.ts) *)
Definition EventProcessingService_processEvent
           (event correlationId : JsValue) : M unit :=
  LogMethod "EventProcessingService" "processEvent" 2
    (startTime <- Date_now ;;
     collector_type <- read collectorType ;;
     try_catch
       (eventId <- get event "eventId" ;;
        source <- get event "source" ;;
        eventType <- get event "eventType" ;;
        funnelStage <- get event "funnelStage" ;;
        logger_log "EventProcessingService" "Processing event"
                   [("correlationId", correlationId); ("eventId", eventId);
                    ("source", source); ("eventType", eventType);
                    ("funnelStage", funnelStage)] ;;
        recordMetric accepted 1
                     [("collector_type", JStr collector_type);
                      ("source", source); ("event_type", eventType);
                      ("funnel_stage", funnelStage)] ;;
        saveEvent event correlationId ;;
        recordMetric processed 1
                     [("collector_type", JStr collector_type);
                      ("source", source); ("event_type", eventType);
                      ("funnel_stage", funnelStage)] ;;
        finished <- Date_now ;;
        let duration := (Z.of_N finished - Z.of_N startTime)%Z in
        recordProcessingDuration duration
                     [("collector_type", JStr collector_type);
                      ("source", source); ("event_type", eventType)] ;;
        logger_log "EventProcessingService" "Event processed successfully"
                   [("correlationId", correlationId); ("eventId", eventId);
                    ("source", source);
                    ("duration", JStr (string_of_Z duration ++ "ms"))])
       (fun error =>
          source <- get event "source" ;;
          eventType <- get event "eventType" ;;
          recordMetric failed 1
                       [("collector_type", JStr collector_type);
                        ("source", source); ("event_type", eventType);
                        ("error", JStr (message error))] ;;
          eventId <- get event "eventId" ;;
          logger_error "EventProcessingService" "Failed to process event"
                       (stack error)
                       [("correlationId", correlationId);
                        ("eventId", eventId); ("source", source);
                        ("error", JStr (message error))] ;;
          throw error)).

Definition processFacebookEvent (event correlationId : JsValue) : M unit :=
  LogMethod "EventProcessingService" "processFacebookEvent" 2
    (EventProcessingService_processEvent event correlationId).

Definition processTiktokEvent (event correlationId : JsValue) : M unit :=
  LogMethod "EventProcessingService" "processTiktokEvent" 2
    (EventProcessingService_processEvent event correlationId).

(** *** Collector service (collectors/services/collector.service.ts) *)

Definition handleFacebookEvent (event correlationId : JsValue) : M unit :=
  LogMethod "CollectorService" "handleFacebookEvent" 2
    (try_catch
       (eventId <- get event "eventId" ;;
        eventType <- get event "eventType" ;;
        funnelStage <- get event "funnelStage" ;;
        logger_log "CollectorService" "Received Facebook event"
                   [("correlationId", correlationId); ("eventId", eventId);
                    ("eventType", eventType);
                    ("funnelStage", funnelStage)] ;;
        processFacebookEvent event correlationId)
       (fun error =>
          eventId <- get event "eventId" ;;
          logger_error "CollectorService" "Failed to handle Facebook event"
                       (stack error)
                       [("correlationId", correlationId);
                        ("eventId", eventId)])).

Definition handleTiktokEvent (event correlationId : JsValue) : M unit :=
  LogMethod "CollectorService" "handleTiktokEvent" 2
    (try_catch
       (eventId <- get event "eventId" ;;
        eventType <- get event "eventType" ;;
        funnelStage <- get event "funnelStage" ;;
        logger_log "CollectorService" "Received TikTok event"
                   [("correlationId", correlationId); ("eventId", eventId);
                    ("eventType", eventType);
                    ("funnelStage", funnelStage)] ;;
        processTiktokEvent event correlationId)
       (fun error =>
          eventId <- get event "eventId" ;;
          logger_error "CollectorService" "Failed to handle TikTok event"
                       (stack error)
                       [("correlationId", correlationId);
                        ("eventId", eventId)])).

End Collector.

Module CollectorService.

Definition svc : string := "CollectorService".

(** The handlers given to [subscribe] are [handleFacebookEvent] for the
    two Facebook subjects and [handleTiktokEvent] for the two TikTok
    ones. *)
Definition subscribeToFacebookEvents : M unit :=
  LogMethod svc "subscribeToFacebookEvents" 0
    (try_catch
       (CollectorMessagingRepository.subscribe
          "events.facebook.top" "facebook-collector-top" ;;
        CollectorMessagingRepository.subscribe
          "events.facebook.bottom" "facebook-collector-bottom" ;;
        logger_log svc "Subscribed to Facebook events" [])
       (fun error =>
          logger_error svc "Failed to subscribe to Facebook events"
                       (stack error) [] ;;
          throw error)).

Definition subscribeToTiktokEvents : M unit :=
  LogMethod svc "subscribeToTiktokEvents" 0
    (try_catch
       (CollectorMessagingRepository.subscribe
          "events.tiktok.top" "tiktok-collector-top" ;;
        CollectorMessagingRepository.subscribe
          "events.tiktok.bottom" "tiktok-collector-bottom" ;;
        logger_log svc "Subscribed to TikTok events" [])
       (fun error =>
          logger_error svc "Failed to subscribe to TikTok events"
                       (stack error) [] ;;
          throw error)).

Definition onModuleInit : M unit :=
  type <- read collectorType ;;
  try_catch
    (CollectorMessagingRepository.initializeStreams
       ["events.facebook.top"; "events.facebook.bottom";
        "events.tiktok.top"; "events.tiktok.bottom"] ;;
     (if String.eqb type "facebook" then subscribeToFacebookEvents
      else if String.eqb type "tiktok" then subscribeToTiktokEvents
      else logger_warn svc ("Unknown collector type: " ++ type) []) ;;
     logger_log svc ("Collector service initialized for " ++ type) [])
    (fun error =>
       logger_error svc "Failed to initialize collector service"
                    (stack error) [] ;;
       throw error).

End CollectorService.

(** ** Vocabulary of the properties *)

(** The schema accepts the input. *)
Definition accepts (schema : ZodType) (v : JsValue) : bool :=
  match parse_at schema [] v with
  | OK _ => true
  | INVALID _ => false
  end.

(** [v.a.b.c], reading [undefined] where there is nothing to read. *)
Definition at_path (v : JsValue) (path : list string) : JsValue :=
  fold_left prop path v.

Definition has (v : JsValue) (k : string) : bool :=
  match v with
  | JObj props => obj_has props k
  | _ => false
  end.

Definition outcome {A} (r : Completion A * World) : Completion A := fst r.
Definition world_after {A} (r : Completion A * World) : World := snd r.

(** The [engagement] property as [z.any()] lets it through: kept when the
    input has the key or a value for it. *)
Definition engagement_field (data : JsValue) : list (string * JsValue) :=
  match prop data "engagement" with
  | JUndefined =>
      if has data "engagement" then [("engagement", JUndefined)] else []
  | e => [("engagement", e)]
  end.

(** The fields [FacebookEventSchema] declares, read off an input. *)
Definition facebook_fields (v : JsValue) : JsValue :=
  let data := prop v "data" in
  let user := prop data "user" in
  let location := prop user "location" in
  JObj
    [("eventId", prop v "eventId");
     ("timestamp", prop v "timestamp");
     ("source", prop v "source");
     ("funnelStage", prop v "funnelStage");
     ("eventType", prop v "eventType");
     ("data",
      JObj
        (("user",
          JObj
            [("userId", prop user "userId");
             ("name", prop user "name");
             ("age", prop user "age");
             ("gender", prop user "gender");
             ("location",
              JObj [("country", prop location "country");
                    ("city", prop location "city")])])
           :: engagement_field data))].

(** The fields [TiktokEventSchema] declares, read off an input. *)
Definition tiktok_fields (v : JsValue) : JsValue :=
  let data := prop v "data" in
  let user := prop data "user" in
  JObj
    [("eventId", prop v "eventId");
     ("timestamp", prop v "timestamp");
     ("source", prop v "source");
     ("funnelStage", prop v "funnelStage");
     ("eventType", prop v "eventType");
     ("data",
      JObj
        (("user",
          JObj
            [("userId", prop user "userId");
             ("username", prop user "username");
             ("followers", prop user "followers")])
           :: engagement_field data))].

Fixpoint strip_prefix (p s : string) : option string :=
  match p, s with
  | EmptyString, _ => Some s
  | String a p', String b s' =>
      if Ascii.eqb a b then strip_prefix p' s' else None
  | String _ _, EmptyString => None
  end.

(** The longest run of decimal digits at the head, and what follows it. *)
Fixpoint span_digits (s : string) : string * string :=
  match s with
  | EmptyString => ("", "")
  | String c rest =>
      if is_digit c
      then let (ds, tail) := span_digits rest in (String c ds, tail)
      else ("", s)
  end.

(** [^gateway-\d+-[a-z0-9]{n}$] *)
Definition generated_format (n : nat) (id : string) : bool :=
  match strip_prefix "gateway-" id with
  | None => false
  | Some rest =>
      let (ds, tail) := span_digits rest in
      negb (String.eqb ds "") &&
      match tail with
      | String c suffix =>
          Ascii.eqb c "-"%char
          && Nat.eqb (String.length suffix) n
          && forallb_string is_lower_alnum suffix
      | EmptyString => false
      end
  end.

(** *** Worlds and inputs of the examples *)

(** A gateway or collector connected to the broker; the clock advances by a
    millisecond per reading; the first draw of [Math.random()] prints as
    [0.abc123def45], the later ones as [0.xyz789012]. *)
Definition world0 : World :=
  mkWorld (fun n => (1705312800000 + N.of_nat n)%N) 0
          (fun _ => "2024-01-15T10:00:00.000Z")
          (fun n => match n with
                    | 0 => [10; 11; 12; 1; 2; 3; 13; 14; 15; 4; 5]
                    | _ => [33; 34; 35; 7; 8; 9; 0; 1; 2]
                    end) 0
          None [] [] (Some Open) true (fun _ _ => None) [] [] [] [].

(** The same, where [Math.random()] returns 0.5: [(0.5).toString(36)] is
    [0.i]. *)
Definition world_half : World :=
  mkWorld (clock_at world0) 0 (toISOString world0) (fun _ => [18]) 0
          None [] [] (Some Open) true (fun _ _ => None) [] [] [] [].

(** A collector of the given type; the broker connection is absent when
    [conn] is [None]. *)
Definition collector_world (type : option string)
           (conn : option ConnectionStatus) : World :=
  mkWorld (clock_at world0) 0 (toISOString world0) (draw_at world0) 0
          type [] []
          conn (match conn with Some _ => true | None => false end)
          (fun _ _ => None) [] [] [] [].

(** [mockFacebookEvent] with one more property. *)
Definition facebookEvent_with_campaign : JsValue :=
  JObj (spread mockFacebookEvent ++ [("campaign", JStr "spring")])%list.

(** The test suite's [eventWithoutUser]. *)
Definition eventWithoutUser : JsValue :=
  JObj (obj_set (spread mockFacebookEvent) "data"
                (JObj [("engagement",
                        at_path mockFacebookEvent ["data"; "engagement"])])).

(** [mockFacebookEvent] with [age: "28"], [mockTiktokEvent] with
    [followers: "1500"]. *)
Definition facebookEvent_age_string : JsValue :=
  JObj (obj_set (spread mockFacebookEvent) "data"
          (JObj (obj_set (spread (prop mockFacebookEvent "data")) "user"
                   (JObj (obj_set
                            (spread (at_path mockFacebookEvent ["data"; "user"]))
                            "age" (JStr "28")))))).

Definition tiktokEvent_followers_string : JsValue :=
  JObj (obj_set (spread mockTiktokEvent) "data"
          (JObj (obj_set (spread (prop mockTiktokEvent "data")) "user"
                   (JObj (obj_set
                            (spread (at_path mockTiktokEvent ["data"; "user"]))
                            "followers" (JStr "1500")))))).

(** A sink that refuses the event whose id is [evt-A] and stores the
    others. *)
Definition failing_sink (event correlationId : JsValue) : M unit :=
  eventId <- get event "eventId" ;;
  match eventId with
  | JStr "evt-A" => throw (Error "Database connection failed")
  | _ => modify (fun w => set_database (database w ++ [(event, correlationId)]) w)
  end.

Definition message_A : JsValue :=
  JObj (obj_set (obj_set (spread mockFacebookEvent) "eventId" (JStr "evt-A"))
                "correlationId" (JStr "corr-A")).

Definition message_B : JsValue :=
  JObj (obj_set (obj_set (spread mockFacebookEvent) "eventId" (JStr "evt-B"))
                "correlationId" (JStr "corr-B")).

Section ShapeOutput.
Variable path : Path.
Variable data : list (string * JsValue).

(** A key of the result: kept when its value is defined or the input has
    the key. *)
Definition add_pair (key : string) (r : ParseReturn)
           (pairs : list (string * JsValue)) : list (string * JsValue) :=
  match r with
  | OK JUndefined =>
      if obj_has data key then (key, JUndefined) :: pairs else pairs
  | OK value => (key, value) :: pairs
  | INVALID _ => pairs
  end.

(** What [parse_shape] returns when every key is accepted. *)
Fixpoint shape_output (shape : list (string * ZodType))
  : list (string * JsValue) :=
  match shape with
  | [] => []
  | (key, validator) :: rest =>
      add_pair key
               (parse_at validator (path ++ [key])%list (obj_get data key))
               (shape_output rest)
  end.

Definition key_accepted (entry : string * ZodType) : Prop :=
  exists value,
    parse_at (snd entry) (path ++ [fst entry])%list (obj_get data (fst entry))
    = OK value.
End ShapeOutput.

(** A fact already brought to its final form. *)
Definition settled (P : Prop) : Prop := P.

(** The log line of an accepted event. *)
Definition validation_logged (out : JsValue) (w : World) : World :=
  set_log (log w ++ [mkLog LOG "ValidationService" "Event validation successful"
                           None
                           [("eventId", prop out "eventId");
                            ("source", prop out "source");
                            ("eventType", prop out "eventType")]]) w.

(** The log line of a rejected event. *)
Definition rejection_logged (v : JsValue) (issues : list ZodIssue) (w : World)
  : World :=
  set_log (log w ++ [mkLog ERROR "ValidationService" "Event validation failed"
                           (Some (message (ZodError issues)))
                           [("eventData", JSON_stringify v)]]) w.

(** The labels of the [failed] sample recorded for a raw payload. *)
Definition failed_labels (raw : JsValue) (error : JsError)
  : list (string * JsValue) :=
  [("source", js_or (opt_member raw "source") (JStr "unknown"));
   ("event_type", js_or (opt_member raw "eventType") (JStr "unknown"));
   ("error", JStr (message error))].

(** The identifier [generateCorrelationId] builds from a clock reading and a
    draw. *)
Definition generated_id (now : N) (draw : list nat) : string :=
  "gateway-" ++ string_of_N now ++ "-" ++ substr 2 9 (toString36 draw).

(** The subject of an event of the given source and funnel stage. *)
Definition subject_of (source stage : string) : string :=
  "events." ++ source ++ "." ++ stage.

(** The event's fields, then [correlationId], then [receivedAt]. *)
Definition envelope_of (event c receivedAt : JsValue) : JsValue :=
  JObj (spread event ++ [("correlationId", c); ("receivedAt", receivedAt)])%list.

(** A message on the wire: its subject and the JSON text of its body. *)
Definition wire (subject : string) (body : JsValue) : string * string :=
  (subject, serialize "" "" body).

Definition facebook_paths : list (list string) :=
  [["eventId"]; ["timestamp"]; ["source"]; ["funnelStage"]; ["eventType"];
   ["data"; "user"; "userId"]; ["data"; "user"; "name"];
   ["data"; "user"; "age"]; ["data"; "user"; "gender"];
   ["data"; "user"; "location"; "country"];
   ["data"; "user"; "location"; "city"];
   ["data"; "engagement"]].

Definition tiktok_paths : list (list string) :=
  [["eventId"]; ["timestamp"]; ["source"]; ["funnelStage"]; ["eventType"];
   ["data"; "user"; "userId"]; ["data"; "user"; "username"];
   ["data"; "user"; "followers"];
   ["data"; "engagement"]].

(** The numeric fields of the two shapes. *)
Inductive NumericField : Type := age | followers.

Definition schema_of (f : NumericField) : ZodType :=
  match f with
  | age => FacebookEventSchema
  | followers => TiktokEventSchema
  end.

Definition source_of (f : NumericField) : string :=
  match f with
  | age => "facebook"
  | followers => "tiktok"
  end.

Definition path_of (f : NumericField) : list string :=
  match f with
  | age => ["data"; "user"; "age"]
  | followers => ["data"; "user"; "followers"]
  end.

Definition validator_of (f : NumericField) : JsValue -> M JsValue :=
  match f with
  | age => ValidationService.validateFacebookEvent
  | followers => ValidationService.validateTiktokEvent
  end.

Definition format_of (f : NumericField) : string :=
  match f with
  | age => "Invalid Facebook event format: "
  | followers => "Invalid TikTok event format: "
  end.

(** The log line of a delivered message. *)
Definition received_logged (subject : string) (data : JsValue) (w : World)
  : World :=
  set_log (log w ++ [mkLog LOG "MessagingRepository"
                           "Received event from stream" None
                           [("subject", JStr subject);
                            ("correlationId", prop data "correlationId");
                            ("eventId", prop data "eventId")]]) w.

(** The log line of a handler that threw. *)
Definition failure_entry (subject : string) (data : JsValue) (e : JsError)
  : LogEntry :=
  mkLog ERROR "MessagingRepository" "Failed to process received event"
        (Some (stack e))
        [("subject", JStr subject); ("data", JSON_stringify data)].

Definition failure_logged (subject : string) (data : JsValue) (e : JsError)
           (w : World) : World :=
  set_log (log w ++ [failure_entry subject data e]) w.

(** The queue group a subscription was taken under. *)
Definition queue_group (subject durableName : string) : string * JsValue :=
  (subject, JObj [("queue", JStr durableName)]).

(** ** Health, logging and persistence *)

(** *** Connection health (nats.service.ts, messaging repositories,
        gateway/health.controller.ts) *)

(** [connection.closed()] of the client library: a promise, as the service
    itself uses it in [connect] ([this.connection.closed().then(...)]).  A
    promise is an object, whatever the status of the connection. *)
Definition connection_closed (status : ConnectionStatus) : JsValue := JObj [].

(** [this.connection !== null && !this.connection.closed()] *)
Definition NatsService_isConnected : M bool :=
  c <- read connection ;;
  ret (match c with
       | None => false
       | Some status => negb (truthy (connection_closed status))
       end).

(** [checkConnection] of the two messaging repositories. *)
Definition MessagingRepository_checkConnection : M bool :=
  try_catch NatsService_isConnected
            (fun error =>
               logger_error "MessagingRepository"
                            "Failed to check NATS connection" (stack error) [] ;;
               ret false).

(** The two indicators [checkReadiness] hands to the health check
    service, evaluated in order. *)
Definition HealthController_checkReadiness : M (list JsValue) :=
  t1 <- new_Date_toISOString ;;
  connected <- NatsService_isConnected ;;
  t2 <- new_Date_toISOString ;;
  ret [JObj [("app", JObj [("status", JStr "up"); ("timestamp", JStr t1)])];
       JObj [("nats",
              JObj [("status", JStr (if connected then "up" else "down"));
                    ("timestamp", JStr t2)])]].

(** *** The structured logger (shared logger) *)

(** [c.toUpperCase()] on the ASCII letters. *)
Definition to_upper (c : ascii) : ascii :=
  let n := nat_of_ascii c in
  if ((97 <=? n) && (n <=? 122))%nat then ascii_of_nat (n - 32) else c.

Fixpoint toUpperCase (s : string) : string :=
  match s with
  | EmptyString => ""
  | String c rest => String (to_upper c) (toUpperCase rest)
  end.

(** [{...base, ...context}]: the properties of the context are assigned in
    order on top of the base. *)
Fixpoint spread_onto (base context : list (string * JsValue))
  : list (string * JsValue) :=
  match context with
  | [] => base
  | (k, v) :: rest => spread_onto (obj_set base k v) rest
  end.

(** A [StructuredLogger]: its service name and its own correlation id. *)
Record StructuredLogger : Type :=
  mkLogger { serviceName : string; ownCorrelationId : string }.

(** The object [formatMessage] serializes. *)
Definition logData (logger : StructuredLogger)
           (timestamp level text : string) (context : JsValue) : JsValue :=
  let correlationId :=
    js_or (opt_member context "correlationId")
          (JStr (ownCorrelationId logger)) in
  JObj (spread_onto
          [("timestamp", JStr timestamp);
           ("level", JStr (toUpperCase level));
           ("service", JStr (serviceName logger));
           ("correlationId", correlationId);
           ("message", JStr text)]
          (spread context)).

Definition formatMessage (logger : StructuredLogger)
           (level text : string) (context : JsValue) : M JsValue :=
  timestamp <- new_Date_toISOString ;;
  ret (JSON_stringify (logData logger timestamp level text context)).

(** The context [error(message, trace, context)] formats:
    [{...context, trace, error: true}]. *)
Definition errorContext (context trace : JsValue) : JsValue :=
  JObj (obj_set (obj_set (spread context) "trace" trace) "error" (JBool true)).

(** The keys of an object are pairwise distinct. *)
Definition distinct_keys (props : list (string * JsValue)) : Prop :=
  NoDup (map fst props).

(** *** The row of an event (collectors/repositories/event.repository.ts) *)

(** The value that the JSON text of [v] parses to: an [undefined] array
    item has become [null], an [undefined] property is gone. *)
Fixpoint json_value (v : JsValue) : JsValue :=
  match v with
  | JUndefined => JNull
  | JArr items => JArr (map json_value items)
  | JObj props =>
      JObj
        ((fix members (ps : list (string * JsValue))
            : list (string * JsValue) :=
            match ps with
            | [] => []
            | (_, JUndefined) :: rest => members rest
            | (k, x) :: rest => (k, json_value x) :: members rest
            end) props)
  | _ => v
  end.

(** [JSON.parse(JSON.stringify(v))]: when [JSON.stringify] returns
    [undefined], [JSON.parse] is given the text [undefined] and throws. *)
Definition JSON_parse_stringify (v : JsValue) : JsValue + JsError :=
  match JSON_stringify v with
  | JStr _ => inl (json_value v)
  | _ => inr (SyntaxError "Unexpected token u in JSON at position 0")
  end.

(** A column of the row: a plain value, [new Date(argument)], or
    [new Date()] at a reading of the clock. *)
Inductive Column : Type :=
| Plain (value : JsValue)
| DateOf (argument : JsValue)
| DateAt (millis : N).

(** The seven columns derived from [event.data.user] with [?.] and
    [|| null]. *)
Definition userColumns (user : JsValue) : list (string * Column) :=
  [("userId", Plain (js_or (opt_member user "userId") JNull));
   ("userName",
    Plain (js_or (js_or (opt_member user "name") (opt_member user "username"))
                 JNull));
   ("userAge", Plain (js_or (opt_member user "age") JNull));
   ("userGender", Plain (js_or (opt_member user "gender") JNull));
   ("userCountry",
    Plain (js_or (opt_member (opt_member user "location") "country") JNull));
   ("userCity",
    Plain (js_or (opt_member (opt_member user "location") "city") JNull));
   ("userFollowers", Plain (js_or (opt_member user "followers") JNull))].

(** The object literal [data] of [saveEvent], its properties evaluated in
    order. *)
Definition eventRecord_data (event correlationId : JsValue)
  : M (list (string * Column)) :=
  eventId <- get event "eventId" ;;
  timestamp <- get event "timestamp" ;;
  source <- get event "source" ;;
  funnelStage <- get event "funnelStage" ;;
  eventType <- get event "eventType" ;;
  data <- get event "data" ;;
  user <- get data "user" ;;
  userData <- lift (JSON_parse_stringify user) ;;
  engagement <- get data "engagement" ;;
  engagementData <- lift (JSON_parse_stringify engagement) ;;
  processedAt <- Date_now ;;
  ret ([("eventId", Plain eventId);
        ("timestamp", DateOf timestamp);
        ("source", Plain source);
        ("funnelStage", Plain funnelStage);
        ("eventType", Plain eventType);
        ("userData", Plain userData);
        ("engagementData", Plain engagementData);
        ("correlationId", Plain correlationId);
        ("processedAt", DateAt processedAt)]
         ++ userColumns user)%list.

Section Repository.

(** [prisma.event.create({data})]: the write, which returns the record
    created or throws. *)
Variable prisma_event_create : list (string * Column) -> M JsValue.

Definition EventRepository_saveEvent (event correlationId : JsValue)
  : M unit :=
  LogMethod "EventRepository" "saveEvent" 2
    (try_catch
       (eventId <- get event "eventId" ;;
        source <- get event "source" ;;
        eventType <- get event "eventType" ;;
        logger_log "EventRepository" "Saving event to database"
                   [("correlationId", correlationId); ("eventId", eventId);
                    ("source", source); ("eventType", eventType)] ;;
        data <- eventRecord_data event correlationId ;;
        eventRecord <- prisma_event_create data ;;
        eventId <- get event "eventId" ;;
        dbId <- get eventRecord "id" ;;
        logger_log "EventRepository" "Event saved to database"
                   [("correlationId", correlationId); ("eventId", eventId);
                    ("dbId", dbId)])
       (fun error =>
          eventId <- get event "eventId" ;;
          source <- get event "source" ;;
          logger_error "EventRepository" "Failed to save event to database"
                       (stack error)
                       [("correlationId", correlationId);
                        ("eventId", eventId); ("source", source);
                        ("error", JStr (message error))] ;;
          throw error)).

End Repository.

(** *** Vocabulary of the further properties *)

(** The error a publication or a subscription meets on a connection that
    is absent or closed. *)
Definition connection_error (c : option ConnectionStatus) : JsError :=
  match c with
  | None => Error "NATS connection not established"
  | Some _ => mkError "NatsError" "CONNECTION_CLOSED" None
  end.

(** The labels of the [accepted] and [processed] samples of the gateway. *)
Definition event_labels (event : JsValue) : list (string * JsValue) :=
  [("source", prop event "source"); ("event_type", prop event "eventType");
   ("funnel_stage", prop event "funnelStage")].

(** The labels of the [accepted] and [processed] samples of a collector. *)
Definition collector_labels (type : string) (event : JsValue)
  : list (string * JsValue) :=
  ("collector_type", JStr type) :: event_labels event.

(** The world in which the event processing service of the collector calls
    the sink: the clock was read once, the decorator's line and the line
    [Processing event] are logged and the [accepted] sample is in. *)
Definition before_save (event correlationId : JsValue) (w : World) : World :=
  set_samples
    (samples w ++ [Counted accepted 1 (collector_labels (collectorType w) event)])
    (set_log
       (log w ++
          [mkLog LOG "EventProcessingService" "Method processEvent called" None
                 [("method", JStr "processEvent"); ("args", JNum 2)];
           mkLog LOG "EventProcessingService" "Processing event" None
                 [("correlationId", correlationId);
                  ("eventId", prop event "eventId");
                  ("source", prop event "source");
                  ("eventType", prop event "eventType");
                  ("funnelStage", prop event "funnelStage")]])
       (set_clock_reads (S (clock_reads w)) w)).

(** The number of counter samples of a kind. *)
Definition count (kind : MetricType) (l : list Sample) : nat :=
  length (filter (fun s => match s, kind with
                           | Counted accepted _ _, accepted
                           | Counted processed _ _, processed
                           | Counted failed _ _, failed => true
                           | _, _ => false
                           end) l).

(** A sink that leaves the metrics alone, as the event repository does. *)
Definition keeps_samples (sink : JsValue -> JsValue -> M unit) : Prop :=
  forall event correlationId w,
    samples (world_after (sink event correlationId w)) = samples w.

(** The counter samples a run added: as many [accepted] as [processed] and
    [failed] together. *)
Definition balanced (delta : list Sample) : Prop :=
  count accepted delta = count processed delta + count failed delta.

Definition adds_balanced {A} (c : M A) (w : World) : Prop :=
  exists delta,
    samples (world_after (c w)) = (samples w ++ delta)%list /\ balanced delta.

(** A handler that returns on every message that is not [null], and adds
    balanced samples. *)
Definition contained (handler : JsValue -> JsValue -> M unit) : Prop :=
  forall event correlationId w,
    is_nullish event = false ->
    outcome (handler event correlationId w) = Return tt
    /\ adds_balanced (handler event correlationId) w.

(** A gateway whose broker connection is absent. *)
Definition world_no_broker : World := collector_world None None.

(** The four subjects of the stream [marketing-events]. *)
Definition stream_subjects : list string :=
  ["events.facebook.top"; "events.facebook.bottom";
   "events.tiktok.top"; "events.tiktok.bottom"].

(** The subjects a started collector of the given type listens on. *)
Definition subjects_of_collector (type : string) : list string :=
  map fst (subscriptions
             (world_after
                (CollectorService.onModuleInit
                   (collector_world (Some type) (Some Open))))).

(** The test suite's [eventWithInvalidGender]. *)
Definition eventWithInvalidGender : JsValue :=
  JObj (obj_set (spread mockFacebookEvent) "data"
          (JObj (obj_set (spread (prop mockFacebookEvent "data")) "user"
                   (JObj (obj_set
                            (spread (at_path mockFacebookEvent ["data"; "user"]))
                            "gender" (JStr "invalid-gender")))))).

(** [mockFacebookEvent] and [mockTiktokEvent] without [engagement]. *)
Definition facebookEvent_without_engagement : JsValue :=
  JObj (obj_set (spread mockFacebookEvent) "data"
          (JObj [("user", at_path mockFacebookEvent ["data"; "user"])])).

Definition tiktokEvent_without_engagement : JsValue :=
  JObj (obj_set (spread mockTiktokEvent) "data"
          (JObj [("user", at_path mockTiktokEvent ["data"; "user"])])).

(** A TikTok event whose user has no followers yet. *)
Definition tiktokEvent_no_followers : JsValue :=
  JObj (obj_set (spread mockTiktokEvent) "data"
          (JObj (obj_set (spread (prop mockTiktokEvent "data")) "user"
                   (JObj (obj_set
                            (spread (at_path mockTiktokEvent ["data"; "user"]))
                            "followers" (JNum 0)))))).

(** * Properties *)

(** ** The parser *)

Section ShapeFacts.
Variable path : Path.
Variable data : list (string * JsValue).

Lemma parse_shape_accepts shape pairs :
  parse_shape parse_at shape path data = inl pairs ->
  Forall (key_accepted path data) shape
  /\ pairs = shape_output path data shape.
Proof.
  revert pairs.
  induction shape as [|[key validator] rest IH]; intros pairs H; cbn in *.
  - inversion H. split; constructor.
  - destruct (parse_at validator (path ++ [key])%list (obj_get data key))
      as [value|issues] eqn:Hkey;
      destruct (parse_shape parse_at rest path data) as [pairs'|more];
      try discriminate.
    destruct (IH pairs' eq_refl) as [Hall Hout].
    split.
    + constructor; [exists value; exact Hkey | exact Hall].
    + inversion H. rewrite <- Hout. destruct value; reflexivity.
Qed.

Lemma parse_shape_rejects shape key validator issues :
  In (key, validator) shape ->
  parse_at validator (path ++ [key])%list (obj_get data key) = INVALID issues ->
  exists all, parse_shape parse_at shape path data = inr all.
Proof.
  induction shape as [|[key' validator'] rest IH]; intros Hin Hbad;
    cbn in *; [contradiction|].
  destruct Hin as [Heq | Hin].
  - inversion Heq; subst. rewrite Hbad.
    destruct (parse_shape parse_at rest path data); eauto.
  - destruct (IH Hin Hbad) as [all Hall]. rewrite Hall.
    destruct (parse_at validator' (path ++ [key'])%list (obj_get data key'));
      eauto.
Qed.
End ShapeFacts.

Lemma parse_string_OK path v out :
  parse_at ZString path v = OK out -> out = v /\ exists s, v = JStr s.
Proof. destruct v; cbn; intros H; inversion H; eauto. Qed.

Lemma parse_number_OK path v out :
  parse_at ZNumber path v = OK out -> out = v /\ exists n, v = JNum n.
Proof. destruct v; cbn; intros H; inversion H; eauto. Qed.

Lemma parse_literal_OK value path v out :
  parse_at (ZLiteral value) path v = OK out -> out = v /\ v = JStr value.
Proof.
  destruct v; cbn; intros H; try discriminate.
  destruct (String.eqb s value) eqn:E; inversion H.
  apply String.eqb_eq in E. subst. auto.
Qed.

Lemma parse_enum_OK options path v out :
  parse_at (ZEnum options) path v = OK out ->
  out = v /\ exists s, v = JStr s /\ In s options.
Proof.
  destruct v; cbn; intros H; try discriminate.
  destruct (existsb (String.eqb s) options) eqn:E; inversion H.
  apply existsb_exists in E. destruct E as [x [Hin Hx]].
  apply String.eqb_eq in Hx. subst. eauto.
Qed.

Lemma parse_object_OK shape path v out :
  parse_at (ZObject shape) path v = OK out ->
  exists props,
    v = JObj props /\ Forall (key_accepted path props) shape
    /\ out = JObj (shape_output path props shape).
Proof.
  destruct v; cbn; intros H; try discriminate.
  destruct (parse_shape parse_at shape path props) as [pairs|issues] eqn:E;
    inversion H.
  apply parse_shape_accepts in E. destruct E as [Hall Hout].
  exists props. subst. auto.
Qed.

Lemma parse_object_rejects shape path props key validator issues :
  In (key, validator) shape ->
  parse_at validator (path ++ [key])%list (obj_get props key) = INVALID issues ->
  exists all, parse_at (ZObject shape) path (JObj props) = INVALID all.
Proof.
  intros Hin Hbad. cbn.
  destruct (parse_shape_rejects path props shape key validator Hin Hbad)
    as [all Hall].
  rewrite Hall. eauto.
Qed.

Lemma parse_object_not_object shape path v :
  (forall props, v <> JObj props) ->
  exists all, parse_at (ZObject shape) path v = INVALID all.
Proof.
  intros H. destruct v; cbn; eauto. exfalso. eapply H. reflexivity.
Qed.

(** ** The two event schemas *)

Ltac settle H :=
  match type of H with
  | ?T => change (settled T) in H
  end.

Ltac split_keys H :=
  repeat match type of H with
         | Forall _ (_ :: _) =>
             let Hk := fresh "Hkey" in
             let Hr := fresh "Hrest" in
             inversion H as [|? ? Hk Hr]; subst; clear H; rename Hr into H;
             destruct Hk as [? Hk]; cbn [fst snd app] in Hk
         | Forall _ [] => clear H
         end.

(** Every accepted key yields the parse fact, with the value in the result
    spelled out, and the equation on the property read. *)
Ltac key_facts :=
  repeat match goal with
         | H : parse_at ZString _ _ = OK _ |- _ =>
             let s := fresh "s" in
             let E := fresh "E" in
             destruct (parse_string_OK _ _ H) as [? [s E]]; subst;
             settle H
         | H : parse_at ZNumber _ _ = OK _ |- _ =>
             let n := fresh "n" in
             let E := fresh "E" in
             destruct (parse_number_OK _ _ H) as [? [n E]]; subst;
             settle H
         | H : parse_at (ZLiteral _) _ _ = OK _ |- _ =>
             let E := fresh "E" in
             destruct (parse_literal_OK _ _ _ H) as [? E]; subst;
             settle H
         | H : parse_at (ZEnum _) _ _ = OK _ |- _ =>
             let s := fresh "s" in
             let E := fresh "E" in
             let I := fresh "I" in
             destruct (parse_enum_OK _ _ _ H) as [? [s [E I]]]; subst;
             settle H
         | H : parse_at ZAny _ _ = OK _ |- _ =>
             let H' := fresh "H" in
             pose proof H as H'; cbn [parse_at] in H'; inversion H'; subst;
             clear H'; settle H
         | H : parse_at (ZObject _) _ _ = OK _ |- _ =>
             let props := fresh "props" in
             let E := fresh "E" in
             let K := fresh "K" in
             let O := fresh "O" in
             destruct (parse_object_OK _ _ _ H) as [props [E [K O]]]; subst;
             settle H;
             split_keys K
         end;
  unfold settled in *.

(** Rewrites the result of a parse with the facts at hand. *)
Ltac build_output :=
  repeat (cbn [shape_output app];
          repeat match goal with
                 | H : parse_at _ _ (obj_get _ _) = OK _ |- _ => rewrite H
                 end).

Ltac read_fields :=
  unfold at_path;
  repeat (progress cbn [prop fold_left]
          || match goal with
             | H : obj_get _ _ = _ |- _ => rewrite H
             end).

Lemma facebook_accepted v out :
  parse_at FacebookEventSchema [] v = OK out ->
  out = facebook_fields v
  /\ prop v "source" = JStr "facebook"
  /\ (exists s, prop v "funnelStage" = JStr s /\ In s ["top"; "bottom"])
  /\ (exists s, prop v "eventId" = JStr s)
  /\ (exists s, prop v "eventType" = JStr s)
  /\ (exists n, at_path v ["data"; "user"; "age"] = JNum n)
  /\ (exists s, at_path v ["data"; "user"; "gender"] = JStr s).
Proof.
  intros H. unfold FacebookEventSchema in H.
  key_facts.
  repeat split; eauto.
  - unfold facebook_fields, engagement_field, has.
    build_output. read_fields. cbn [add_pair].
    unfold add_pair. destruct (obj_get props0 "engagement"); reflexivity.
  - read_fields. eauto.
  - read_fields. eauto.
Qed.

Lemma tiktok_accepted v out :
  parse_at TiktokEventSchema [] v = OK out ->
  out = tiktok_fields v
  /\ prop v "source" = JStr "tiktok"
  /\ (exists s, prop v "funnelStage" = JStr s /\ In s ["top"; "bottom"])
  /\ (exists s, prop v "eventId" = JStr s)
  /\ (exists s, prop v "eventType" = JStr s)
  /\ (exists n, at_path v ["data"; "user"; "followers"] = JNum n).
Proof.
  intros H. unfold TiktokEventSchema in H.
  key_facts.
  repeat split; eauto.
  - unfold tiktok_fields, engagement_field, has.
    build_output. read_fields. cbn [add_pair].
    unfold add_pair. destruct (obj_get props0 "engagement"); reflexivity.
  - read_fields. eauto.
Qed.

(** What the combined schema returns: the first schema that accepts decides. *)
Lemma union_parse v :
  parse_at EventSchema [] v =
  match parse_at FacebookEventSchema [] v with
  | OK out => OK out
  | INVALID fb =>
      match parse_at TiktokEventSchema [] v with
      | OK out => OK out
      | INVALID tk => INVALID [invalid_union [fb; tk] []]
      end
  end.
Proof.
  unfold EventSchema. cbn [parse_at parse_options].
  destruct (parse_at FacebookEventSchema [] v); [reflexivity|].
  destruct (parse_at TiktokEventSchema [] v); reflexivity.
Qed.

Lemma not_both v :
  accepts FacebookEventSchema v && accepts TiktokEventSchema v = false.
Proof.
  unfold accepts.
  destruct (parse_at FacebookEventSchema [] v) as [fb|] eqn:Hfb; [|reflexivity].
  destruct (parse_at TiktokEventSchema [] v) as [tk|] eqn:Htt; [|reflexivity].
  apply facebook_accepted in Hfb. apply tiktok_accepted in Htt.
  destruct Hfb as [_ [Hfb _]]. destruct Htt as [_ [Htt _]].
  rewrite Hfb in Htt. discriminate.
Qed.

Lemma validated_is_event v out :
  parse_at EventSchema [] v = OK out ->
  (out = facebook_fields v /\ accepts FacebookEventSchema v = true)
  \/ (out = tiktok_fields v /\ accepts TiktokEventSchema v = true
      /\ accepts FacebookEventSchema v = false).
Proof.
  rewrite union_parse. unfold accepts.
  destruct (parse_at FacebookEventSchema [] v) as [fb|] eqn:Hfb.
  - intros H. inversion H. subst. left.
    apply facebook_accepted in Hfb. tauto.
  - destruct (parse_at TiktokEventSchema [] v) as [tk|] eqn:Htk;
      intros H; inversion H. subst. right.
    apply tiktok_accepted in Htk. tauto.
Qed.

(** ** The validation service *)

Lemma validateEvent_run v w :
  ValidationService.validateEvent v w =
  match parse_at EventSchema [] v with
  | OK out => (Return out, validation_logged out w)
  | INVALID issues =>
      (Throw (BadRequestException
                ("Invalid event format: " ++ message (ZodError issues))),
       rejection_logged v issues w)
  end.
Proof.
  unfold ValidationService.validateEvent, try_catch, bind, lift, parse.
  destruct (parse_at EventSchema [] v) as [out|issues] eqn:Hparse.
  - destruct (validated_is_event _ Hparse) as [[Hout _] | [Hout _]];
      rewrite Hout; reflexivity.
  - reflexivity.
Qed.

Arguments ValidationService.validateEvent : simpl never.
Arguments serialize : simpl never.
Arguments string_of_N : simpl never.
Arguments string_of_Z : simpl never.
Arguments toString36 : simpl never.
Arguments substr : simpl never.
Arguments String.append : simpl never.

(** ** Rejected payloads *)

Lemma processEvent_rejects raw cid issues w :
  parse_at EventSchema [] raw = INVALID issues ->
  let e := BadRequestException
             ("Invalid event format: " ++ message (ZodError issues)) in
  let r := WebhookService.processEvent raw cid w in
  outcome r = Throw e
  /\ samples (world_after r) = (samples w ++ [Counted failed 1 (failed_labels raw e)])%list
  /\ published (world_after r) = published w.
Proof.
  intros Hparse e r. subst r e.
  unfold WebhookService.processEvent, LogMethod, try_catch, bind.
  cbn. rewrite validateEvent_run, Hparse. cbn. auto.
Qed.

(** ** The accepted path of the gateway *)

Lemma falsy_cases v :
  truthy v = false ->
  v = JUndefined \/ v = JNull \/ v = JBool false \/ v = JNum 0 \/ v = JStr "".
Proof.
  destruct v as [| |b|n|s| |]; cbn; intros H; try discriminate; auto.
  - destruct b; [discriminate|auto].
  - destruct n; try discriminate. auto.
  - destruct s; try discriminate. auto 6.
Qed.

(** Control flow must not wait on a hypothesis: the world is opened so that
    its connection is read by computation, and the supplied id is split
    into the cases [truthy] distinguishes. *)
Ltac open_world w Hconn :=
  destruct w; cbn in Hconn; subst.

Ltac split_falsy cid Hcid :=
  destruct (falsy_cases _ Hcid) as [?|[?|[?|[?|?]]]]; subst cid.

Ltac split_truthy cid Hcid :=
  destruct cid as [| |[|]|[|?|?]|[|? ?]| |]; cbn in Hcid; try discriminate.

Ltac run_gateway :=
  unfold WebhookController.receiveWebhook, WebhookService.processEvent,
    GatewayMessagingRepository.publishEvent, LogMethod, try_catch, bind;
  cbn.

(** A validated event is an object whose [source] and [funnelStage] are
    strings; it is one of the two readings of its raw payload. *)
Lemma validated_shape raw event :
  parse_at EventSchema [] raw = OK event ->
  (event = facebook_fields raw \/ event = tiktok_fields raw)
  /\ exists source stage,
       prop raw "source" = JStr source
       /\ prop raw "funnelStage" = JStr stage
       /\ In source ["facebook"; "tiktok"] /\ In stage ["top"; "bottom"].
Proof.
  intros Hparse.
  destruct (validated_is_event _ Hparse) as [[Hout Hacc] | [Hout [Hacc _]]];
    unfold accepts in Hacc.
  - destruct (parse_at FacebookEventSchema [] raw) as [fb|] eqn:Hfb;
      [|discriminate].
    destruct (facebook_accepted _ Hfb) as [_ [Hsrc [[stage [Hstage I]] _]]].
    split; [auto|]. exists "facebook", stage.
    repeat split; auto; cbn; auto.
  - destruct (parse_at TiktokEventSchema [] raw) as [tk|] eqn:Htk;
      [|discriminate].
    destruct (tiktok_accepted _ Htk) as [_ [Hsrc [[stage [Hstage I]] _]]].
    split; [auto|]. exists "tiktok", stage.
    repeat split; auto; cbn; auto.
Qed.

(** No id supplied: the envelope gets the id generated inside
    [publishEvent], the response the id generated afterwards by the
    controller, from a later clock reading and the next draw. *)
Lemma receiveWebhook_generates_twice raw event cid w :
  parse_at EventSchema [] raw = OK event ->
  connection w = Some Open ->
  truthy cid = false ->
  let r := WebhookController.receiveWebhook raw cid w in
  exists source stage,
    prop event "source" = JStr source /\ prop event "funnelStage" = JStr stage
    /\ outcome r =
       Return (JObj [("success", JBool true);
                     ("eventId", prop event "eventId");
                     ("correlationId",
                      JStr (generated_id (clock_at w (4 + clock_reads w))
                                         (draw_at w (1 + draws w))))])
    /\ published (world_after r) =
       (published w ++
          [wire (subject_of source stage)
             (envelope_of event
                (JStr (generated_id (clock_at w (1 + clock_reads w))
                                    (draw_at w (draws w))))
                (JStr (toISOString w (clock_at w (2 + clock_reads w)))))])%list.
Proof.
  intros Hparse Hconn Hcid r. subst r.
  destruct (validated_shape _ Hparse)
    as [Hout [source [stage [Hsrc [Hstage _]]]]].
  exists source, stage.
  open_world w Hconn. split_falsy cid Hcid.
  all: run_gateway; rewrite validateEvent_run, Hparse.
  all: destruct Hout as [Hout | Hout]; rewrite Hout; cbn;
    rewrite Hsrc, Hstage; cbn;
    (split; [reflexivity|]); (split; [reflexivity|]);
    (split; [reflexivity|]); f_equal; f_equal.
Qed.

(** An id supplied: the response and the envelope both carry it. *)
Lemma receiveWebhook_echoes raw event cid w :
  parse_at EventSchema [] raw = OK event ->
  connection w = Some Open ->
  truthy cid = true ->
  let r := WebhookController.receiveWebhook raw cid w in
  exists source stage,
    prop event "source" = JStr source /\ prop event "funnelStage" = JStr stage
    /\ outcome r =
       Return (JObj [("success", JBool true);
                     ("eventId", prop event "eventId");
                     ("correlationId", cid)])
    /\ published (world_after r) =
       (published w ++
          [wire (subject_of source stage)
             (envelope_of event cid
                (JStr (toISOString w (clock_at w (1 + clock_reads w)))))])%list.
Proof.
  intros Hparse Hconn Hcid r. subst r.
  destruct (validated_shape _ Hparse)
    as [Hout [source [stage [Hsrc [Hstage _]]]]].
  exists source, stage.
  open_world w Hconn. split_truthy cid Hcid.
  all: run_gateway; rewrite validateEvent_run, Hparse.
  all: destruct Hout as [Hout | Hout]; rewrite Hout; cbn;
    rewrite Hsrc, Hstage; cbn;
    (split; [reflexivity|]); (split; [reflexivity|]);
    (split; [reflexivity|]); f_equal; f_equal.
Qed.

(** ** Generated identifiers *)

Lemma strip_prefix_app p x : strip_prefix p (p ++ x) = Some x.
Proof.
  induction p as [|a p IH]; [reflexivity|].
  change (String a p ++ x) with (String a (p ++ x)).
  cbn [strip_prefix]. rewrite Ascii.eqb_refl. exact IH.
Qed.

Lemma span_digits_app ds c tail :
  forallb_string is_digit ds = true ->
  is_digit c = false ->
  span_digits (ds ++ String c tail) = (ds, String c tail).
Proof.
  intros Hds Hc. induction ds as [|a ds IH].
  - change ("" ++ String c tail) with (String c tail).
    cbn [span_digits]. rewrite Hc. reflexivity.
  - change (String a ds ++ String c tail) with (String a (ds ++ String c tail)).
    cbn [forallb_string] in Hds. apply andb_true_iff in Hds.
    destruct Hds as [Ha Hds].
    cbn [span_digits]. rewrite Ha, (IH Hds). reflexivity.
Qed.

Lemma uint_digits d :
  forallb_string is_digit (NilEmpty.string_of_uint d) = true.
Proof. induction d; cbn [NilEmpty.string_of_uint forallb_string]; auto. Qed.

Lemma string_of_N_digits n :
  forallb_string is_digit (string_of_N n) = true /\ string_of_N n <> "".
Proof.
  unfold string_of_N, NilZero.string_of_uint.
  pose proof (uint_digits (N.to_uint n)) as H.
  destruct (N.to_uint n); split; try exact H; try discriminate; reflexivity.
Qed.

Lemma length_app a b :
  String.length (a ++ b) = String.length a + String.length b.
Proof.
  induction a as [|c a IH]; [reflexivity|].
  change (String c a ++ b) with (String c (a ++ b)).
  cbn [String.length]. rewrite IH. reflexivity.
Qed.

Lemma forallb_string_app p a b :
  forallb_string p (a ++ b) = forallb_string p a && forallb_string p b.
Proof.
  induction a as [|c a IH]; [reflexivity|].
  change (String c a ++ b) with (String c (a ++ b)).
  cbn [forallb_string]. rewrite IH. apply andb_assoc.
Qed.

Lemma length_substring_0 m s :
  String.length (String.substring 0 m s) = Nat.min m (String.length s).
Proof.
  revert s. induction m as [|m IH]; intros [|c s]; cbn; auto.
Qed.

Lemma forallb_substring_0 p m s :
  forallb_string p s = true ->
  forallb_string p (String.substring 0 m s) = true.
Proof.
  revert s. induction m as [|m IH]; intros [|c s]; cbn; auto.
  intros H. apply andb_true_iff in H. destruct H as [Hc Hs].
  rewrite Hc. cbn. auto.
Qed.

Lemma digit36_char d :
  d < 36 -> exists c, digit36 d = String c "" /\ is_lower_alnum c = true.
Proof.
  intros H.
  do 36 (destruct d as [|d]; [eexists; split; reflexivity|]).
  lia.
Qed.

Lemma concat_digits ds :
  Forall (fun d => d < 36) ds ->
  String.length (String.concat "" (map digit36 ds)) = length ds
  /\ forallb_string is_lower_alnum (String.concat "" (map digit36 ds)) = true.
Proof.
  induction 1 as [|d ds Hd Hds [IHlen IHall]]; [split; reflexivity|].
  destruct (digit36_char Hd) as [c [Hc Halnum]].
  assert (Hcons : String.concat "" (map digit36 (d :: ds))
                  = String c (String.concat "" (map digit36 ds))).
  { cbn [map String.concat]. rewrite Hc.
    destruct (map digit36 ds); reflexivity. }
  rewrite Hcons. cbn [String.length forallb_string].
  rewrite IHlen, IHall, Halnum. split; reflexivity.
Qed.

Lemma suffix_facts draw :
  Forall (fun d => d < 36) draw ->
  String.length (substr 2 9 (toString36 draw)) = Nat.min 9 (length draw)
  /\ forallb_string is_lower_alnum (substr 2 9 (toString36 draw)) = true.
Proof.
  intros H. destruct draw as [|d ds]; [split; reflexivity|].
  destruct (concat_digits H) as [Hlen Hall].
  unfold substr, toString36.
  change (String.substring 2 9 ("0." ++ String.concat "" (map digit36 (d :: ds))))
    with (String.substring 0 9 (String.concat "" (map digit36 (d :: ds)))).
  rewrite length_substring_0, Hlen. split; [reflexivity|].
  apply forallb_substring_0. exact Hall.
Qed.

Lemma generated_id_format now draw :
  Forall (fun d => d < 36) draw ->
  generated_format (Nat.min 9 (length draw)) (generated_id now draw) = true.
Proof.
  intros H. destruct (suffix_facts H) as [Hlen Hall].
  destruct (string_of_N_digits now) as [Hdigits Hne].
  unfold generated_format, generated_id.
  rewrite strip_prefix_app.
  change ("-" ++ substr 2 9 (toString36 draw))
    with (String "-"%char (substr 2 9 (toString36 draw))).
  rewrite span_digits_app; [|exact Hdigits|reflexivity].
  apply String.eqb_neq in Hne. rewrite Hne.
  rewrite Hlen, Hall, Nat.eqb_refl. reflexivity.
Qed.

Lemma generateCorrelationId_run w :
  generateCorrelationId w =
  (Return (generated_id (clock_at w (clock_reads w)) (draw_at w (draws w))),
   set_draws (S (draws w)) (set_clock_reads (S (clock_reads w)) w)).
Proof. reflexivity. Qed.

(** ** Claims on the gateway *)

(** C1 (the code departs from the claim).  A valid Facebook [ad.view]
    event is posted with no correlation id.  The envelope published on
    [events.facebook.top] carries the id generated inside [publishEvent]
    from the first draw of [Math.random()]; the response carries another
    id, generated afterwards by the controller from a later clock reading
    and the second draw.  The two differ. *)
Theorem response_id_is_not_envelope_id :
  let r := WebhookController.receiveWebhook mockFacebookEvent JUndefined world0 in
  outcome r =
    Return (JObj [("success", JBool true); ("eventId", JStr "fb-event-123");
                  ("correlationId", JStr "gateway-1705312800004-xyz789012")])
  /\ published (world_after r) =
     [wire "events.facebook.top"
           (envelope_of mockFacebookEvent
                        (JStr "gateway-1705312800001-abc123def")
                        (JStr "2024-01-15T10:00:00.000Z"))]
  /\ "gateway-1705312800004-xyz789012" <> "gateway-1705312800001-abc123def".
Proof.
  split; [vm_compute; reflexivity|].
  split; [vm_compute; reflexivity|].
  discriminate.
Qed.

Lemma receiveWebhook_rejects raw cid issues w :
  parse_at EventSchema [] raw = INVALID issues ->
  let e := BadRequestException
             ("Invalid event format: " ++ message (ZodError issues)) in
  let r := WebhookController.receiveWebhook raw cid w in
  outcome r = Throw e
  /\ samples (world_after r) = (samples w ++ [Counted failed 1 (failed_labels raw e)])%list
  /\ published (world_after r) = published w.
Proof.
  intros Hparse e r. subst r e.
  run_gateway. rewrite validateEvent_run, Hparse. cbn. auto.
Qed.

Lemma validateEvent_rejects raw issues w :
  parse_at EventSchema [] raw = INVALID issues ->
  outcome (ValidationService.validateEvent raw w) =
  Throw (BadRequestException
           ("Invalid event format: " ++ message (ZodError issues))).
Proof. intros H. rewrite validateEvent_run, H. reflexivity. Qed.

(** Payloads that are no objects: the two labels are [unknown] and
    nothing is published. *)
Example payloads_that_are_no_objects :
  map (fun raw =>
         let w := world_after
                    (WebhookController.receiveWebhook raw JUndefined world0) in
         (match samples w with
          | [Counted failed 1 (source :: event_type :: _)] =>
              Some (source, event_type)
          | _ => None
          end, published w))
      [JNull; JUndefined; JNum 7; JStr "invalid-event";
       JArr [mockFacebookEvent]]
  = repeat (Some (("source", JStr "unknown"), ("event_type", JStr "unknown")),
            []) 5.
Proof. vm_compute. reflexivity. Qed.

Lemma unknown_when_absent raw k :
  prop raw k = JUndefined ->
  js_or (opt_member raw k) (JStr "unknown") = JStr "unknown".
Proof.
  intros H. unfold opt_member. destruct (is_nullish raw); [reflexivity|].
  rewrite H. reflexivity.
Qed.

(** C3.  A raw payload that the event schema rejects: the error thrown by
    the validation service is the one [processEvent] and the controller
    throw; one [failed] sample is recorded, labelled with the payload's
    [source] and [eventType] where these are truthy and with [unknown]
    otherwise (in particular when they are absent, and whenever the payload
    is not an object); nothing is published. *)
Theorem rejected_payload_counted_not_published
        (raw cid : JsValue) (w : World) :
  accepts EventSchema raw = false ->
  exists e,
    (forall w0, outcome (ValidationService.validateEvent raw w0) = Throw e)
    /\ outcome (WebhookService.processEvent raw cid w) = Throw e
    /\ outcome (WebhookController.receiveWebhook raw cid w) = Throw e
    /\ samples (world_after (WebhookController.receiveWebhook raw cid w)) =
       (samples w ++
          [Counted failed 1
             [("source", js_or (opt_member raw "source") (JStr "unknown"));
              ("event_type",
               js_or (opt_member raw "eventType") (JStr "unknown"));
              ("error", JStr (message e))]])%list
    /\ published (world_after (WebhookController.receiveWebhook raw cid w)) =
       published w
    /\ (prop raw "source" = JUndefined ->
        js_or (opt_member raw "source") (JStr "unknown") = JStr "unknown")
    /\ (prop raw "eventType" = JUndefined ->
        js_or (opt_member raw "eventType") (JStr "unknown") = JStr "unknown")
    /\ ((forall props, raw <> JObj props) ->
        js_or (opt_member raw "source") (JStr "unknown") = JStr "unknown"
        /\ js_or (opt_member raw "eventType") (JStr "unknown") = JStr "unknown").
Proof.
  unfold accepts. intros Hrej.
  destruct (parse_at EventSchema [] raw) as [|issues] eqn:Hparse;
    [discriminate|].
  exists (BadRequestException
            ("Invalid event format: " ++ message (ZodError issues))).
  destruct (processEvent_rejects raw cid w Hparse) as [Hp _].
  destruct (receiveWebhook_rejects raw cid w Hparse) as [Hc [Hs Hpub]].
  split; [intros w0; apply validateEvent_rejects; exact Hparse|].
  split; [exact Hp|]. split; [exact Hc|]. split; [exact Hs|].
  split; [exact Hpub|].
  split; [apply unknown_when_absent|]. split; [apply unknown_when_absent|].
  intros Hno. split; apply unknown_when_absent;
    destruct raw; try reflexivity; exfalso; eapply Hno; reflexivity.
Qed.

Lemma rejected_payload_counted_not_published_witness :
  accepts EventSchema (JObj [("invalid", JStr "data")]) = false
  /\ exists e,
      outcome (WebhookController.receiveWebhook
                 (JObj [("invalid", JStr "data")]) JUndefined world0) = Throw e
      /\ published (world_after
                      (WebhookController.receiveWebhook
                         (JObj [("invalid", JStr "data")]) JUndefined world0))
         = [].
Proof.
  split; [reflexivity|].
  destruct (@rejected_payload_counted_not_published
              (JObj [("invalid", JStr "data")]) JUndefined world0 eq_refl)
    as [e [_ [_ [Hc [_ [Hpub _]]]]]].
  exists e. split; [exact Hc | exact Hpub].
Defined.

(** C6.  A validated event is published as exactly one message: the
    subject is [events.<source>.<funnelStage>] for the event's own source
    and funnel stage, and the body is the event's fields followed by
    [correlationId] (the supplied id, or a generated one) and [receivedAt]
    (the clock at publication). *)
Theorem publish_places_one_envelope
        (raw event cid : JsValue) (w : World) :
  parse_at EventSchema [] raw = OK event ->
  connection w = Some Open ->
  let r := GatewayMessagingRepository.publishEvent event cid w in
  exists source stage,
    prop event "source" = JStr source
    /\ prop event "funnelStage" = JStr stage
    /\ outcome r = Return tt
    /\ published (world_after r) =
       (published w ++
          [wire (subject_of source stage)
             (envelope_of event
                (if truthy cid then cid
                 else JStr (generated_id (clock_at w (clock_reads w))
                                         (draw_at w (draws w))))
                (JStr (toISOString w
                         (clock_at w (if truthy cid then clock_reads w
                                      else S (clock_reads w))))))])%list.
Proof.
  intros Hparse Hconn r. subst r.
  destruct (validated_shape _ Hparse)
    as [Hout [source [stage [Hsrc [Hstage _]]]]].
  exists source, stage.
  open_world w Hconn.
  destruct cid as [| |[|]|[|?|?]|[|? ?]| |].
  all: unfold GatewayMessagingRepository.publishEvent, LogMethod, try_catch,
         bind.
  all: destruct Hout as [Hout | Hout]; rewrite Hout; cbn;
    rewrite Hsrc, Hstage; cbn;
    (split; [reflexivity|]); (split; [reflexivity|]);
    (split; [reflexivity|]); f_equal; f_equal.
Qed.

Lemma publish_places_one_envelope_witness :
  published (world_after
               (GatewayMessagingRepository.publishEvent
                  mockTiktokEvent (JStr "test-corr-456") world0)) =
  [wire "events.tiktok.bottom"
        (envelope_of mockTiktokEvent (JStr "test-corr-456")
                     (JStr "2024-01-15T10:00:00.000Z"))].
Proof.
  destruct (@publish_places_one_envelope
              mockTiktokEvent mockTiktokEvent (JStr "test-corr-456") world0
              eq_refl eq_refl)
    as [source [stage [Hsrc [Hstage [_ Hpub]]]]].
  rewrite Hpub. cbn in Hsrc, Hstage.
  inversion Hsrc; inversion Hstage; subst. reflexivity.
Defined.

(** C7 (as amended).  A non-empty supplied id is returned as it is, and
    neither the clock nor the random source is touched.  With no id, the
    result is [gateway-<millis>-<suffix>], where the suffix is made of the
    first nine base-36 digits printed for the draw: lowercase letters and
    digits, nine of them when the draw prints at least nine, fewer
    otherwise. *)
Theorem correlation_id_resolution (s : string) (cid : JsValue) (w : World) :
  s <> "" ->
  truthy cid = false ->
  Forall (fun d => d < 36) (draw_at w (draws w)) ->
  correlationId_or_generated (JStr s) w = (Return (JStr s), w)
  /\ outcome (correlationId_or_generated cid w) =
     Return (JStr (generated_id (clock_at w (clock_reads w))
                                (draw_at w (draws w))))
  /\ generated_format (Nat.min 9 (length (draw_at w (draws w))))
                      (generated_id (clock_at w (clock_reads w))
                                    (draw_at w (draws w))) = true.
Proof.
  intros Hs Hcid Hdraw. split; [|split].
  - unfold correlationId_or_generated. cbn [truthy].
    apply String.eqb_neq in Hs. rewrite Hs. reflexivity.
  - unfold correlationId_or_generated. rewrite Hcid.
    unfold bind. rewrite generateCorrelationId_run. reflexivity.
  - apply generated_id_format. exact Hdraw.
Qed.

Lemma correlation_id_resolution_witness :
  correlationId_or_generated (JStr "custom-corr-456") world0
  = (Return (JStr "custom-corr-456"), world0)
  /\ outcome (correlationId_or_generated JUndefined world0)
     = Return (JStr "gateway-1705312800000-abc123def")
  /\ generated_format 9 "gateway-1705312800000-abc123def" = true.
Proof.
  assert (Hs : "custom-corr-456" <> "") by discriminate.
  assert (Hdraw : Forall (fun d => d < 36) (draw_at world0 (draws world0))).
  { cbn. repeat constructor; lia. }
  exact (@correlation_id_resolution
           "custom-corr-456" JUndefined world0 Hs eq_refl Hdraw).
Defined.

(** C7, the claim as stated fails: [Math.random()] can return 0.5, which
    prints as [0.i] in base 36; the suffix is then the single character
    [i], not nine characters. *)
Lemma generated_suffix_can_be_short :
  outcome (correlationId_or_generated JUndefined world_half)
  = Return (JStr "gateway-1705312800000-i")
  /\ generated_format 9 "gateway-1705312800000-i" = false.
Proof. split; vm_compute; reflexivity. Qed.

(** ** Claims on validation *)

Lemma dedicated_validator_run f v w :
  validator_of f v w =
  match parse_at (schema_of f) [] v with
  | OK out => (Return out, w)
  | INVALID issues =>
      (Throw (BadRequestException (format_of f ++ message (ZodError issues))),
       w)
  end.
Proof.
  destruct f; cbn [validator_of schema_of format_of];
    unfold ValidationService.validateFacebookEvent,
      ValidationService.validateTiktokEvent, try_catch, lift, parse.
  - destruct (parse_at FacebookEventSchema [] v); reflexivity.
  - destruct (parse_at TiktokEventSchema [] v); reflexivity.
Qed.

Lemma engagement_read data :
  obj_get (engagement_field data) "engagement" = prop data "engagement".
Proof.
  unfold engagement_field.
  destruct (prop data "engagement") eqn:E; try reflexivity.
  destruct (has data "engagement"); reflexivity.
Qed.

Lemma facebook_fields_agree v :
  Forall (fun path => at_path (facebook_fields v) path = at_path v path)
         facebook_paths.
Proof.
  unfold facebook_paths.
  repeat (constructor; [reflexivity|]).
  constructor; [|constructor].
  unfold at_path, facebook_fields. cbn [fold_left prop obj_get String.eqb Ascii.eqb Bool.eqb].
  apply engagement_read.
Qed.

Lemma tiktok_fields_agree v :
  Forall (fun path => at_path (tiktok_fields v) path = at_path v path)
         tiktok_paths.
Proof.
  unfold tiktok_paths.
  repeat (constructor; [reflexivity|]).
  constructor; [|constructor].
  unfold at_path, tiktok_fields. cbn [fold_left prop obj_get String.eqb Ascii.eqb Bool.eqb].
  apply engagement_read.
Qed.

(** C5.  No input is accepted by both schemas.  The combined validator
    returns only when exactly one of the two schemas accepts the input, and
    throws a [BadRequestException] when neither does; it does one or the
    other on every input. *)
Theorem validation_discriminates (v : JsValue) (w : World) :
  accepts FacebookEventSchema v && accepts TiktokEventSchema v = false
  /\ match outcome (ValidationService.validateEvent v w) with
     | Return out =>
         xorb (accepts FacebookEventSchema v) (accepts TiktokEventSchema v)
         = true
         /\ accepts EventSchema v = true
     | Throw e =>
         accepts FacebookEventSchema v = false
         /\ accepts TiktokEventSchema v = false
         /\ name e = "BadRequestException"
     end.
Proof.
  split; [apply not_both|].
  pose proof (not_both v) as Hnb.
  rewrite validateEvent_run. unfold accepts in *. rewrite union_parse.
  destruct (parse_at FacebookEventSchema [] v);
    destruct (parse_at TiktokEventSchema [] v);
    cbn in *; auto; discriminate.
Qed.

(** C8, the claim as stated fails: the validator returns the fixture
    without the property the schema does not declare. *)
Lemma undeclared_property_is_stripped :
  outcome (ValidationService.validateEvent facebookEvent_with_campaign world0)
  = Return mockFacebookEvent
  /\ accepts FacebookEventSchema facebookEvent_with_campaign = true
  /\ prop facebookEvent_with_campaign "campaign" = JStr "spring"
  /\ prop mockFacebookEvent "campaign" = JUndefined
  /\ mockFacebookEvent <> facebookEvent_with_campaign.
Proof.
  split; [vm_compute; reflexivity|].
  split; [vm_compute; reflexivity|].
  split; [reflexivity|]. split; [reflexivity|].
  intros H. apply (f_equal (fun x => prop x "campaign")) in H.
  vm_compute in H. discriminate.
Qed.

(** C8 (as amended).  On success the combined validator returns the
    object made of the fields the accepting schema declares, each read off
    the input: the result agrees with the input on every declared field,
    nested user and location fields and the whole [engagement] value
    included, and is the input itself when the input consists of exactly
    these fields in the order of the schema. *)
Theorem validated_event_is_its_declared_fields
        (v out : JsValue) (w : World) :
  outcome (ValidationService.validateEvent v w) = Return out ->
  (accepts FacebookEventSchema v = true
   /\ out = facebook_fields v
   /\ Forall (fun path => at_path out path = at_path v path) facebook_paths
   /\ (v = facebook_fields v -> out = v))
  \/ (accepts TiktokEventSchema v = true
      /\ out = tiktok_fields v
      /\ Forall (fun path => at_path out path = at_path v path) tiktok_paths
      /\ (v = tiktok_fields v -> out = v)).
Proof.
  rewrite validateEvent_run.
  destruct (parse_at EventSchema [] v) as [event|issues] eqn:Hparse;
    cbn; intros H; inversion H; subst.
  destruct (validated_is_event _ Hparse) as [[Hout Hacc] | [Hout [Hacc _]]];
    [left | right]; subst out.
  - repeat split; auto using facebook_fields_agree.
  - repeat split; auto using tiktok_fields_agree.
Qed.

Lemma validated_event_is_its_declared_fields_witness :
  outcome (ValidationService.validateEvent mockTiktokEvent world0)
  = Return mockTiktokEvent
  /\ mockTiktokEvent = tiktok_fields mockTiktokEvent.
Proof.
  assert (H : outcome (ValidationService.validateEvent mockTiktokEvent world0)
              = Return mockTiktokEvent) by reflexivity.
  split; [exact H|].
  destruct (@validated_event_is_its_declared_fields
              mockTiktokEvent mockTiktokEvent world0 H)
    as [[Hacc _] | [_ [Hout _]]].
  - discriminate Hacc.
  - exact Hout.
Defined.

Lemma rejected_unless_field_is_number f v :
  accepts (schema_of f) v = true -> exists n, at_path v (path_of f) = JNum n.
Proof.
  unfold accepts.
  destruct (parse_at (schema_of f) [] v) as [out|] eqn:H; [|discriminate].
  intros _. destruct f; cbn [schema_of path_of] in *.
  - apply facebook_accepted in H. tauto.
  - apply tiktok_accepted in H. tauto.
Qed.

Lemma source_of_accepted f v :
  accepts (schema_of f) v = true -> prop v "source" = JStr (source_of f).
Proof.
  unfold accepts.
  destruct (parse_at (schema_of f) [] v) as [out|] eqn:H; [|discriminate].
  intros _. destruct f; cbn [schema_of source_of] in *.
  - apply facebook_accepted in H. tauto.
  - apply tiktok_accepted in H. tauto.
Qed.

Lemma validateEvent_throws_when_both_reject v w :
  accepts FacebookEventSchema v = false ->
  accepts TiktokEventSchema v = false ->
  exists issues,
    outcome (ValidationService.validateEvent v w) =
    Throw (BadRequestException
             ("Invalid event format: " ++ message (ZodError issues))).
Proof.
  unfold accepts. intros Hfb Htk.
  rewrite validateEvent_run, union_parse.
  destruct (parse_at FacebookEventSchema [] v); [discriminate|].
  destruct (parse_at TiktokEventSchema [] v); [discriminate|].
  eexists. reflexivity.
Qed.

(** C9.  An input whose [data.user.age] is a string is rejected by the
    Facebook schema and by [validateFacebookEvent], and by the combined
    validator when its source is [facebook]; likewise for
    [data.user.followers], the TikTok schema, [validateTiktokEvent] and
    the source [tiktok].  The string is never turned into a number. *)
Theorem numeric_string_is_rejected
        (f : NumericField) (v : JsValue) (s : string) (w : World) :
  at_path v (path_of f) = JStr s ->
  accepts (schema_of f) v = false
  /\ (exists issues,
        outcome (validator_of f v w) =
        Throw (BadRequestException
                 (format_of f ++ message (ZodError issues))))
  /\ (prop v "source" = JStr (source_of f) ->
      exists issues,
        outcome (ValidationService.validateEvent v w) =
        Throw (BadRequestException
                 ("Invalid event format: " ++ message (ZodError issues)))).
Proof.
  intros Hfield.
  assert (Hrej : accepts (schema_of f) v = false).
  { destruct (accepts (schema_of f) v) eqn:Hacc; [|reflexivity].
    destruct (rejected_unless_field_is_number f v Hacc) as [n Hn].
    rewrite Hfield in Hn. discriminate. }
  split; [exact Hrej|]. split.
  - rewrite dedicated_validator_run. unfold accepts in Hrej.
    destruct (parse_at (schema_of f) [] v); [discriminate|].
    eexists. reflexivity.
  - intros Hsrc.
    assert (Hother : forall g, g <> f -> accepts (schema_of g) v = false).
    { intros g Hg. destruct (accepts (schema_of g) v) eqn:Hacc; [|reflexivity].
      apply source_of_accepted in Hacc. rewrite Hsrc in Hacc.
      destruct f, g; try discriminate; exfalso; apply Hg; reflexivity. }
    destruct f; apply validateEvent_throws_when_both_reject;
      try exact Hrej.
    + apply (Hother followers). discriminate.
    + apply (Hother age). discriminate.
Qed.

Lemma numeric_string_is_rejected_witness :
  at_path facebookEvent_age_string ["data"; "user"; "age"] = JStr "28"
  /\ accepts FacebookEventSchema facebookEvent_age_string = false
  /\ at_path tiktokEvent_followers_string ["data"; "user"; "followers"]
     = JStr "1500"
  /\ accepts TiktokEventSchema tiktokEvent_followers_string = false.
Proof.
  split; [reflexivity|]. split.
  - exact (proj1 (@numeric_string_is_rejected
                    age facebookEvent_age_string "28" world0 eq_refl)).
  - split; [reflexivity|].
    exact (proj1 (@numeric_string_is_rejected
                    followers tiktokEvent_followers_string "1500" world0
                    eq_refl)).
Defined.

Lemma facebook_format_named m :
  contains "Facebook event format" ("Invalid Facebook event format: " ++ m)
  = true.
Proof. reflexivity. Qed.

Lemma tiktok_needs_user v :
  at_path v ["data"; "user"] = JUndefined ->
  accepts TiktokEventSchema v = false.
Proof.
  intros Huser.
  destruct (accepts TiktokEventSchema v) eqn:Hacc; [|reflexivity].
  destruct (rejected_unless_field_is_number followers v Hacc) as [n Hn].
  cbn [path_of] in Hn. unfold at_path in *. cbn [fold_left] in *.
  rewrite Huser in Hn. discriminate.
Qed.

Lemma facebook_gender_accepted v out :
  parse_at FacebookEventSchema [] v = OK out ->
  exists s, at_path v ["data"; "user"; "gender"] = JStr s
            /\ In s ["male"; "female"; "non-binary"].
Proof.
  intros H. unfold FacebookEventSchema in H.
  key_facts.
  match goal with
  | Hg : obj_get _ "gender" = JStr ?g, I : In ?g _ |- _ =>
      exists g; split; [read_fields; reflexivity | exact I]
  end.
Qed.

Lemma generic_prefix_names_no_shape m :
  String.prefix "Invalid event format: " ("Invalid event format: " ++ m) = true
  /\ contains "Facebook event format" ("Invalid event format: " ++ m)
     = contains "Facebook event format" m.
Proof. split; [destruct m; reflexivity | reflexivity]. Qed.

(** C4, the claim as stated fails: on the test suite's event without
    [data.user] the combined validator throws a message that begins
    [Invalid event format: ] and nowhere says [Facebook event format]. *)
Lemma combined_validator_names_no_shape :
  at_path eventWithoutUser ["data"; "user"] = JUndefined
  /\ exists msg,
      outcome (ValidationService.validateEvent eventWithoutUser world0)
      = Throw (BadRequestException msg)
      /\ String.prefix "Invalid event format: " msg = true
      /\ contains "Facebook event format" msg = false.
Proof.
  split; [reflexivity|].
  eexists. split; [vm_compute; reflexivity|].
  split; vm_compute; reflexivity.
Qed.

(** C4 (as amended).  An input without [data.user], or whose [age] is
    not a number, or whose [gender] is not one of the strings [male],
    [female] and [non-binary] (so also when it is no string), is rejected
    by the Facebook schema; [validateFacebookEvent] throws a
    [BadRequestException] whose message is [Invalid Facebook event format: ]
    followed by zod's message, and so says [Facebook event format].  The
    combined validator rejects such an input when [data.user] is missing
    or the source is [facebook]; its message is [Invalid event format: ]
    followed by zod's message for the union of the issues of the two
    schemas, and it names no shape of its own: the words
    [Facebook event format] are in it exactly when they are in zod's
    message, which quotes the input. *)
Theorem facebook_shape_violation_is_named (v : JsValue) (w : World) :
  at_path v ["data"; "user"] = JUndefined
  \/ getParsedType (at_path v ["data"; "user"; "age"]) <> "number"
  \/ (forall s, In s ["male"; "female"; "non-binary"] ->
                at_path v ["data"; "user"; "gender"] <> JStr s) ->
  exists issues,
    parse_at FacebookEventSchema [] v = INVALID issues
    /\ outcome (ValidationService.validateFacebookEvent v w) =
       Throw (BadRequestException
                ("Invalid Facebook event format: " ++ message (ZodError issues)))
    /\ contains "Facebook event format"
                ("Invalid Facebook event format: " ++ message (ZodError issues))
       = true
    /\ (at_path v ["data"; "user"] = JUndefined
        \/ prop v "source" = JStr "facebook" ->
        exists others,
          parse_at TiktokEventSchema [] v = INVALID others
          /\ let union := message (ZodError [invalid_union [issues; others] []]) in
             outcome (ValidationService.validateEvent v w) =
             Throw (BadRequestException ("Invalid event format: " ++ union))
             /\ String.prefix "Invalid event format: "
                              ("Invalid event format: " ++ union) = true
             /\ contains "Facebook event format"
                         ("Invalid event format: " ++ union)
                = contains "Facebook event format" union).
Proof.
  intros Hbad.
  assert (Hrej : accepts FacebookEventSchema v = false).
  { destruct (accepts FacebookEventSchema v) eqn:Hacc; [|reflexivity].
    unfold accepts in Hacc.
    destruct (parse_at FacebookEventSchema [] v) as [out|] eqn:H;
      [|discriminate].
    destruct (facebook_accepted _ H) as [_ [_ [_ [_ [_ [[n Hage] _]]]]]].
    destruct (facebook_gender_accepted _ H) as [s [Hgender Hin]].
    destruct Hbad as [Huser | [Hbad | Hbad]].
    - unfold at_path in *. cbn [fold_left] in *.
      rewrite Huser in Hage. discriminate.
    - rewrite Hage in Hbad. exfalso. apply Hbad. reflexivity.
    - exfalso. exact (Hbad s Hin Hgender). }
  pose proof (dedicated_validator_run age v w) as Hrun.
  cbn [validator_of schema_of format_of] in Hrun.
  unfold accepts in Hrej.
  destruct (parse_at FacebookEventSchema [] v) as [|issues] eqn:Hparse;
    [discriminate|].
  exists issues. split; [reflexivity|].
  split; [rewrite Hrun; reflexivity|].
  split; [apply facebook_format_named|].
  intros Hwhen.
  assert (Htk : accepts TiktokEventSchema v = false).
  { destruct Hwhen as [Huser | Hsrc].
    - apply tiktok_needs_user. exact Huser.
    - destruct (accepts TiktokEventSchema v) eqn:Hacc; [|reflexivity].
      apply (source_of_accepted followers) in Hacc.
      rewrite Hsrc in Hacc. discriminate. }
  unfold accepts in Htk.
  destruct (parse_at TiktokEventSchema [] v) as [|others] eqn:Hparse';
    [discriminate|].
  exists others. split; [reflexivity|]. cbv zeta.
  split.
  - rewrite validateEvent_run, union_parse, Hparse, Hparse'. reflexivity.
  - apply generic_prefix_names_no_shape.
Qed.

Lemma facebook_shape_violation_is_named_witness :
  (exists issues,
      outcome (ValidationService.validateFacebookEvent eventWithoutUser world0) =
      Throw (BadRequestException
               ("Invalid Facebook event format: " ++ message (ZodError issues))))
  /\ (exists issues,
         outcome (ValidationService.validateFacebookEvent
                    eventWithInvalidGender world0) =
         Throw (BadRequestException
                  ("Invalid Facebook event format: "
                     ++ message (ZodError issues)))).
Proof.
  split.
  - destruct (@facebook_shape_violation_is_named eventWithoutUser world0
                (or_introl eq_refl))
      as [issues [_ [Hthrow _]]].
    exists issues. exact Hthrow.
  - assert (Hgender : forall s,
               In s ["male"; "female"; "non-binary"] ->
               at_path eventWithInvalidGender ["data"; "user"; "gender"]
               <> JStr s).
    { intros s [<- | [<- | [<- | []]]]; discriminate. }
    destruct (@facebook_shape_violation_is_named eventWithInvalidGender world0
                (or_intror (or_intror Hgender)))
      as [issues [_ [Hthrow _]]].
    exists issues. exact Hthrow.
Defined.

(** ** Claims on the collector *)

Arguments JSON_stringify : simpl never.

Lemma callback_catches subject handler data e w wA :
  is_nullish data = false ->
  handler data (prop data "correlationId") (received_logged subject data w)
  = (Throw e, wA) ->
  CollectorMessagingRepository.callback subject handler data w
  = (Return tt, failure_logged subject data e wA).
Proof.
  intros Hdata Hthrow.
  unfold CollectorMessagingRepository.callback, try_catch, bind, get, member,
    CollectorMessagingRepository.svc.
  unfold received_logged in Hthrow.
  rewrite Hdata. cbn. rewrite Hthrow. reflexivity.
Qed.

Lemma callback_returns subject handler data w wB :
  is_nullish data = false ->
  handler data (prop data "correlationId") (received_logged subject data w)
  = (Return tt, wB) ->
  CollectorMessagingRepository.callback subject handler data w
  = (Return tt, wB).
Proof.
  intros Hdata Hret.
  unfold CollectorMessagingRepository.callback, try_catch, bind, get, member,
    CollectorMessagingRepository.svc.
  unfold received_logged in Hret.
  rewrite Hdata. cbn. rewrite Hret. reflexivity.
Qed.

Lemma on_message_returns subject callback msg w :
  exists w', NatsService.on_message subject callback msg w = (Return tt, w').
Proof.
  unfold NatsService.on_message, try_catch, bind.
  destruct msg as [data|text]; cbn.
  - destruct (callback data w) as [[[]|e] w1]; eexists; reflexivity.
  - eexists; reflexivity.
Qed.

Lemma message_loop_returns subject callback msgs w :
  outcome (NatsService.message_loop subject callback msgs w) = Return tt.
Proof.
  revert w. induction msgs as [|msg rest IH]; intros w; [reflexivity|].
  cbn [NatsService.message_loop]. unfold bind.
  destruct (on_message_returns subject callback msg w) as [w' Hw'].
  rewrite Hw'. apply IH.
Qed.

Lemma on_message_delivers subject callback data w :
  NatsService.on_message subject callback (NatsService.Json data) w
  = match callback data w with
    | (Return tt, w') => (Return tt, w')
    | (Throw e, w') =>
        logger_error NatsService.svc
                     ("Error processing message from " ++ subject)
                     (stack e) [] w'
    end.
Proof.
  unfold NatsService.on_message, try_catch, bind. cbn.
  destruct (callback data w) as [[[]|e] w']; reflexivity.
Qed.

(** C2.  A message [A] whose handler throws: the function given to the
    NATS service returns normally; the world is the one the handler left,
    with one more [error] line carrying the subject and [JSON.stringify] of
    the payload; the handler is not run again on [A]; the loop goes on with
    the rest of the messages from that world, so a message [B] that follows
    is handed to the handler next; and the loop itself never ends with an
    error, whatever the messages and the handler. *)
Theorem handler_failure_is_contained
        (subject : string) (handler : JsValue -> JsValue -> M unit)
        (A B : JsValue) (e : JsError) (w wA : World) :
  is_nullish A = false ->
  handler A (prop A "correlationId") (received_logged subject A w)
  = (Throw e, wA) ->
  let contained := failure_logged subject A e wA in
  CollectorMessagingRepository.callback subject handler A w
  = (Return tt, contained)
  /\ In (mkLog ERROR "MessagingRepository" "Failed to process received event"
               (Some (stack e))
               [("subject", JStr subject); ("data", JSON_stringify A)])
        (log contained)
  /\ (forall rest,
        CollectorMessagingRepository.consume
          subject handler (NatsService.Json A :: rest) w
        = CollectorMessagingRepository.consume subject handler rest contained)
  /\ (forall wB,
        is_nullish B = false ->
        handler B (prop B "correlationId") (received_logged subject B contained)
        = (Return tt, wB) ->
        CollectorMessagingRepository.consume
          subject handler [NatsService.Json A; NatsService.Json B] w
        = (Return tt, wB))
  /\ (forall msgs w0,
        outcome (CollectorMessagingRepository.consume subject handler msgs w0)
        = Return tt).
Proof.
  intros HA Hthrow contained.
  pose proof (callback_catches subject handler A w HA Hthrow) as Hcb.
  fold contained in Hcb.
  assert (Hstep : forall rest,
             CollectorMessagingRepository.consume
               subject handler (NatsService.Json A :: rest) w
             = CollectorMessagingRepository.consume
                 subject handler rest contained).
  { intros rest. unfold CollectorMessagingRepository.consume.
    cbn [NatsService.message_loop]. unfold bind at 1.
    rewrite on_message_delivers, Hcb. reflexivity. }
  split; [exact Hcb|]. split.
  - unfold contained, failure_logged, failure_entry. cbn [log set_log].
    apply in_or_app. right. left. reflexivity.
  - split; [exact Hstep|]. split.
    + intros wB HB Hret. rewrite Hstep.
      unfold CollectorMessagingRepository.consume.
      cbn [NatsService.message_loop]. unfold bind.
      rewrite on_message_delivers.
      rewrite (callback_returns subject handler B contained HB Hret).
      reflexivity.
    + intros msgs w0. apply message_loop_returns.
Qed.

(** The handlers of the collector service catch what the processing
    service throws: they return normally on every message that is not
    [null]. *)
Lemma handleFacebookEvent_returns saveEvent event correlationId w :
  is_nullish event = false ->
  outcome (handleFacebookEvent saveEvent event correlationId w) = Return tt.
Proof.
  intros Hevent.
  destruct event; try discriminate.
  all: unfold handleFacebookEvent, processFacebookEvent,
         EventProcessingService_processEvent, LogMethod, try_catch, bind.
  all: cbn.
  all: destruct (saveEvent _ _ _) as [[[]|e] w1]; reflexivity.
Qed.

(** Scenario 4 of the specification with the handler of the collector:
    the sink refuses [A] and stores [B]. *)
Lemma message_B_processed_after_A_failed :
  let r := CollectorMessagingRepository.consume
             "events.facebook.top" (handleFacebookEvent failing_sink)
             [NatsService.Json message_A; NatsService.Json message_B]
             (collector_world (Some "facebook") (Some Open)) in
  outcome r = Return tt
  /\ database (world_after r) = [(message_B, JStr "corr-B")]
  /\ map (fun s => match s with
                   | Counted type _ _ => Some type
                   | Observed _ _ => None
                   end) (samples (world_after r))
     = [Some accepted; Some failed; Some accepted; Some processed; None].
Proof. vm_compute. repeat split; reflexivity. Qed.

Lemma handler_failure_is_contained_witness :
  database
    (world_after
       (CollectorMessagingRepository.consume
          "events.facebook.top" failing_sink
          [NatsService.Json message_A; NatsService.Json message_B]
          (collector_world (Some "facebook") (Some Open))))
  = [(message_B, JStr "corr-B")].
Proof.
  pose (w := collector_world (Some "facebook") (Some Open)).
  pose (wA := received_logged "events.facebook.top" message_A w).
  pose (e := Error "Database connection failed").
  destruct (@handler_failure_is_contained
              "events.facebook.top" failing_sink message_A message_B e w wA
              eq_refl eq_refl)
    as [_ [_ [_ [HB _]]]].
  pose (wB := world_after
                (failing_sink message_B (prop message_B "correlationId")
                   (received_logged "events.facebook.top" message_B
                      (failure_logged "events.facebook.top" message_A e wA)))).
  exact (eq_trans
           (f_equal (fun r => database (world_after r))
                    (HB wB eq_refl eq_refl))
           eq_refl).
Defined.

Arguments collectorType : simpl never.

(** [ensureStream] swallows whatever [createStream] throws, and neither
    touches the connection nor the subscriptions. *)
Lemma ensureStream_run streamName subjects w :
  exists w1,
    NatsService.ensureStream streamName subjects w = (Return tt, w1)
    /\ connection w1 = connection w
    /\ subscriptions w1 = subscriptions w
    /\ COLLECTOR_TYPE w1 = COLLECTOR_TYPE w.
Proof.
  destruct w.
  unfold NatsService.ensureStream, NatsService.createStream,
    NatsService.getJetStream, try_catch, bind, read.
  destruct jetStream0; cbn.
  - destruct (streams_add0 streamName subjects) as [[nm msg [c|]]|]; cbn.
    + destruct (Z.eqb c 10058); cbn; eexists; repeat split; reflexivity.
    + eexists; repeat split; reflexivity.
    + eexists; repeat split; reflexivity.
  - eexists; repeat split; reflexivity.
Qed.

Arguments NatsService.ensureStream : simpl never.

Lemma initializeStreams_run subjects w :
  exists w1,
    CollectorMessagingRepository.initializeStreams subjects w = (Return tt, w1)
    /\ connection w1 = connection w
    /\ subscriptions w1 = subscriptions w
    /\ COLLECTOR_TYPE w1 = COLLECTOR_TYPE w.
Proof.
  unfold CollectorMessagingRepository.initializeStreams, LogMethod, try_catch,
    bind.
  cbn.
  match goal with
  | |- context [NatsService.ensureStream ?n ?s ?w0] =>
      destruct (ensureStream_run n s w0) as [w1 [Hrun [Hc [Hs Ht]]]]
  end.
  rewrite Hrun. cbn. eexists. repeat split; cbn; assumption.
Qed.

Arguments CollectorMessagingRepository.initializeStreams : simpl never.

Lemma onModuleInit_subscribes source w :
  In source ["facebook"; "tiktok"] ->
  COLLECTOR_TYPE w = Some source ->
  connection w = Some Open ->
  let r := CollectorService.onModuleInit w in
  outcome r = Return tt
  /\ subscriptions (world_after r) =
     (subscriptions w ++
        [queue_group ("events." ++ source ++ ".top")
                     (source ++ "-collector-top");
         queue_group ("events." ++ source ++ ".bottom")
                     (source ++ "-collector-bottom")])%list.
Proof.
  intros Hsource Htype Hconn r. subst r.
  destruct (initializeStreams_run
              ["events.facebook.top"; "events.facebook.bottom";
               "events.tiktok.top"; "events.tiktok.bottom"] w)
    as [w1 [Hrun [Hc [Hs Ht]]]].
  rewrite Hconn in Hc. clear Ht.
  unfold CollectorService.onModuleInit, try_catch, bind, read.
  cbv beta iota. rewrite Hrun.
  unfold collectorType. rewrite Htype.
  destruct w1; cbn in Hc, Hs; subst.
  destruct Hsource as [<- | [<- | []]].
  all: unfold CollectorService.subscribeToFacebookEvents,
         CollectorService.subscribeToTiktokEvents,
         CollectorMessagingRepository.subscribe, NatsService.subscribe,
         NatsService.getConnection, LogMethod, try_catch, bind.
  all: cbn; (split; [reflexivity|]).
  all: rewrite <- app_assoc; reflexivity.
Qed.

Lemma onModuleInit_warns w :
  collectorType w <> "facebook" ->
  collectorType w <> "tiktok" ->
  let r := CollectorService.onModuleInit w in
  outcome r = Return tt
  /\ subscriptions (world_after r) = subscriptions w
  /\ In (mkLog WARN "CollectorService"
               ("Unknown collector type: " ++ collectorType w) None [])
        (log (world_after r)).
Proof.
  intros Hfb Htk r. subst r.
  destruct (initializeStreams_run
              ["events.facebook.top"; "events.facebook.bottom";
               "events.tiktok.top"; "events.tiktok.bottom"] w)
    as [w1 [Hrun [_ [Hs _]]]].
  apply String.eqb_neq in Hfb, Htk.
  unfold CollectorService.onModuleInit, try_catch, bind, read.
  cbv beta iota. rewrite Hrun, Hfb, Htk.
  cbn. split; [reflexivity|]. split; [exact Hs|].
  apply in_or_app. left. apply in_or_app. right. left. reflexivity.
Qed.

(** C10.  With [COLLECTOR_TYPE=facebook] and the broker connected, start-up
    returns and has taken exactly two subscriptions:
    [events.facebook.top] under the queue group [facebook-collector-top]
    and [events.facebook.bottom] under [facebook-collector-bottom];
    likewise for [tiktok].  With any other collector type, or none, it
    takes no subscription, logs the warning and returns, whatever the
    state of the broker. *)
Theorem collector_startup (w : World) :
  (forall source,
      In source ["facebook"; "tiktok"] ->
      COLLECTOR_TYPE w = Some source ->
      connection w = Some Open ->
      outcome (CollectorService.onModuleInit w) = Return tt
      /\ subscriptions (world_after (CollectorService.onModuleInit w)) =
         (subscriptions w ++
            [queue_group ("events." ++ source ++ ".top")
                         (source ++ "-collector-top");
             queue_group ("events." ++ source ++ ".bottom")
                         (source ++ "-collector-bottom")])%list)
  /\ (collectorType w <> "facebook" ->
      collectorType w <> "tiktok" ->
      outcome (CollectorService.onModuleInit w) = Return tt
      /\ subscriptions (world_after (CollectorService.onModuleInit w))
         = subscriptions w
      /\ In (mkLog WARN "CollectorService"
                   ("Unknown collector type: " ++ collectorType w) None [])
            (log (world_after (CollectorService.onModuleInit w))))
  /\ (COLLECTOR_TYPE w = None -> collectorType w = "unknown").
Proof.
  split; [|split].
  - intros source Hsource Htype Hconn.
    exact (@onModuleInit_subscribes source w Hsource Htype Hconn).
  - intros Hfb Htk. exact (@onModuleInit_warns w Hfb Htk).
  - intros Hnone. unfold collectorType. rewrite Hnone. reflexivity.
Qed.

Lemma collector_startup_witness :
  subscriptions
    (world_after
       (CollectorService.onModuleInit
          (collector_world (Some "facebook") (Some Open))))
  = [("events.facebook.top", JObj [("queue", JStr "facebook-collector-top")]);
     ("events.facebook.bottom",
      JObj [("queue", JStr "facebook-collector-bottom")])]
  /\ outcome (CollectorService.onModuleInit (collector_world None None))
     = Return tt
  /\ subscriptions
       (world_after (CollectorService.onModuleInit (collector_world None None)))
     = [].
Proof.
  split.
  - exact (proj2 (proj1 (collector_startup
                           (collector_world (Some "facebook") (Some Open)))
                        "facebook" (or_introl eq_refl) eq_refl eq_refl)).
  - assert (Hfb : collectorType (collector_world None None) <> "facebook")
      by discriminate.
    assert (Htk : collectorType (collector_world None None) <> "tiktok")
      by discriminate.
    destruct (proj1 (proj2 (collector_startup (collector_world None None)))
                    Hfb Htk) as [Hret [Hsub _]].
    split; [exact Hret | exact Hsub].
Defined.

(** * Further properties of the code *)

(** ** Objects *)

Lemma obj_get_set_same props k v : obj_get (obj_set props k v) k = v.
Proof.
  induction props as [|[k' v'] rest IH]; cbn.
  - rewrite String.eqb_refl. reflexivity.
  - destruct (String.eqb k k') eqn:E; cbn; rewrite E; auto.
Qed.

Lemma obj_get_set_other props k v k' :
  k' <> k -> obj_get (obj_set props k v) k' = obj_get props k'.
Proof.
  intros Hne. induction props as [|[k0 v0] rest IH]; cbn.
  - apply String.eqb_neq in Hne. rewrite Hne. reflexivity.
  - destruct (String.eqb k k0) eqn:E; cbn.
    + apply String.eqb_eq in E. subst k0.
      apply String.eqb_neq in Hne. rewrite Hne. reflexivity.
    + destruct (String.eqb k' k0); auto.
Qed.

Lemma obj_has_false_get props k :
  obj_has props k = false -> obj_get props k = JUndefined.
Proof.
  induction props as [|[k' v'] rest IH]; cbn; [reflexivity|].
  destruct (String.eqb k k'); cbn; [discriminate|exact IH].
Qed.

Lemma obj_has_keys props k :
  obj_has props k = true <-> In k (map fst props).
Proof.
  induction props as [|[k' v'] rest IH]; cbn; [split; [discriminate|tauto]|].
  rewrite orb_true_iff, IH, String.eqb_eq. intuition congruence.
Qed.

Lemma obj_has_set_same props k v : obj_has (obj_set props k v) k = true.
Proof.
  induction props as [|[k' v'] rest IH]; cbn.
  - rewrite String.eqb_refl. reflexivity.
  - destruct (String.eqb k k') eqn:E; cbn; rewrite E; auto.
Qed.

Lemma obj_has_set_other props k v k' :
  k' <> k -> obj_has (obj_set props k v) k' = obj_has props k'.
Proof.
  intros Hne. induction props as [|[k0 v0] rest IH]; cbn.
  - apply String.eqb_neq in Hne. rewrite Hne. reflexivity.
  - destruct (String.eqb k k0) eqn:E; cbn; [reflexivity|].
    rewrite IH. reflexivity.
Qed.

Lemma obj_set_distinct props k v :
  distinct_keys props -> distinct_keys (obj_set props k v).
Proof.
  unfold distinct_keys.
  induction props as [|[k' v'] rest IH]; cbn; intros H.
  - constructor; [tauto|constructor].
  - inversion H as [|? ? Hnot Hrest]; subst.
    destruct (String.eqb k k') eqn:E; cbn; [exact H|].
    constructor; [|exact (IH Hrest)].
    intros Hin. apply obj_has_keys in Hin.
    apply String.eqb_neq in E.
    rewrite obj_has_set_other in Hin by congruence.
    apply obj_has_keys in Hin. contradiction.
Qed.

Lemma spread_onto_get context : forall base k,
  distinct_keys context ->
  obj_get (spread_onto base context) k =
  if obj_has context k then obj_get context k else obj_get base k.
Proof.
  unfold distinct_keys.
  induction context as [|[k0 v0] rest IH]; intros base k H; [reflexivity|].
  inversion H as [|? ? Hnot Hrest]; subst.
  cbn [spread_onto obj_has obj_get]. rewrite (IH _ _ Hrest).
  destruct (String.eqb k k0) eqn:E.
  - apply String.eqb_eq in E. subst k0. cbn [orb].
    destruct (obj_has rest k) eqn:Hhas.
    + apply obj_has_keys in Hhas. contradiction.
    + apply obj_get_set_same.
  - cbn [orb]. apply String.eqb_neq in E.
    rewrite obj_get_set_other by exact E. reflexivity.
Qed.

(** ** Generated identifiers, once more *)

Lemma string_of_N_inj n n' : string_of_N n = string_of_N n' -> n = n'.
Proof.
  intros H. apply DecimalN.Unsigned.to_uint_inj.
  assert (Hnil : forall m, N.to_uint m <> Decimal.Nil).
  { intros [|p]; [discriminate|]. apply DecimalPos.Unsigned.to_uint_nonnil. }
  pose proof (NilZero.usu (N.to_uint n) (Hnil n)) as Hn.
  pose proof (NilZero.usu (N.to_uint n') (Hnil n')) as Hn'.
  unfold string_of_N in H. rewrite H in Hn. rewrite Hn in Hn'.
  inversion Hn'. reflexivity.
Qed.

Lemma generated_id_inj now now' draw draw' :
  generated_id now draw = generated_id now' draw' -> now = now'.
Proof.
  intros Heq. apply string_of_N_inj.
  unfold generated_id in Heq.
  assert (Hrest : forall x y, "gateway-" ++ x = "gateway-" ++ y -> x = y).
  { intros x y H. inversion H as [H1]. exact H1. }
  apply Hrest in Heq.
  destruct (string_of_N_digits now) as [Hd _].
  destruct (string_of_N_digits now') as [Hd' _].
  assert (Hspan : forall x tail,
             forallb_string is_digit x = true ->
             fst (span_digits (x ++ "-" ++ tail)) = x).
  { intros x tail Hx.
    change ("-" ++ tail) with (String "-"%char tail).
    rewrite span_digits_app; [reflexivity|exact Hx|reflexivity]. }
  rewrite <- (Hspan _ (substr 2 9 (toString36 draw)) Hd).
  rewrite <- (Hspan _ (substr 2 9 (toString36 draw')) Hd').
  rewrite Heq. reflexivity.
Qed.

(** X1.  Two identifiers generated at different readings of the clock
    differ, whatever [Math.random()] returns: the decimal text of the
    milliseconds can be read back from the identifier. *)
Theorem ids_of_different_milliseconds_differ (w w' : World) :
  clock_at w (clock_reads w) <> clock_at w' (clock_reads w') ->
  outcome (generateCorrelationId w) <> outcome (generateCorrelationId w').
Proof.
  intros Hne Heq. apply Hne.
  rewrite !generateCorrelationId_run in Heq. cbn [outcome fst] in Heq.
  apply (@generated_id_inj _ _ (draw_at w (draws w)) (draw_at w' (draws w'))).
  congruence.
Qed.

Lemma ids_of_different_milliseconds_differ_witness :
  outcome (generateCorrelationId world0)
  <> outcome (generateCorrelationId
                (world_after (generateCorrelationId world_half))).
Proof.
  assert (H : clock_at world0 (clock_reads world0)
              <> clock_at (world_after (generateCorrelationId world_half))
                          (clock_reads
                             (world_after (generateCorrelationId world_half))))
    by discriminate.
  exact (@ids_of_different_milliseconds_differ
           world0 (world_after (generateCorrelationId world_half)) H).
Defined.

(** ** The gateway *)

(** X2.  An event that passes validation while the broker connection is
    absent or closed: the request fails with the error of the connection
    ([NATS connection not established] when there is none,
    [CONNECTION_CLOSED] when it is closed), the event is counted [accepted]
    and then [failed], never [processed], and nothing is published.  The
    labels of the [failed] sample are read off the raw payload, not off the
    validated event. *)
Theorem accepted_event_fails_when_broker_is_away
        (raw event cid : JsValue) (w : World) :
  parse_at EventSchema [] raw = OK event ->
  connection w <> Some Open ->
  let e := connection_error (connection w) in
  let r := WebhookController.receiveWebhook raw cid w in
  outcome r = Throw e
  /\ samples (world_after r) =
     (samples w ++ [Counted accepted 1 (event_labels event);
                    Counted failed 1 (failed_labels raw e)])%list
  /\ published (world_after r) = published w.
Proof.
  intros Hparse Hconn e r. subst r e.
  destruct (validated_shape _ Hparse)
    as [Hout [source [stage [Hsrc [Hstage _]]]]].
  destruct w as [? ? ? ? ? ? ? ? conn ? ? ? ? ? ?].
  cbn in Hconn. cbn [connection].
  destruct conn as [[|]|]; [contradiction| |].
  all: destruct cid as [| |[|]|[|?|?]|[|? ?]| |].
  all: run_gateway; rewrite validateEvent_run, Hparse.
  all: destruct Hout as [Hout | Hout]; rewrite Hout; cbn;
    rewrite Hsrc, Hstage; cbn;
    (split; [reflexivity|]); (split; [|reflexivity]);
    rewrite <- app_assoc; unfold event_labels, failed_labels; cbn;
    rewrite ?Hsrc, ?Hstage; reflexivity.
Qed.

Lemma accepted_event_fails_when_broker_is_away_witness :
  outcome (WebhookController.receiveWebhook
             mockFacebookEvent JUndefined world_no_broker)
  = Throw (Error "NATS connection not established")
  /\ published (world_after
                  (WebhookController.receiveWebhook
                     mockFacebookEvent JUndefined world_no_broker)) = [].
Proof.
  assert (Hconn : connection world_no_broker <> Some Open) by discriminate.
  destruct (@accepted_event_fails_when_broker_is_away
              mockFacebookEvent mockFacebookEvent JUndefined world_no_broker
              eq_refl Hconn) as [Hout [_ Hpub]].
  split; [exact Hout | exact Hpub].
Defined.



(** X4.  A request that carries a truthy correlation id (any non-empty
    string), for a valid event and with the broker connected: the response
    carries that id, the one published message is the envelope of the
    event with that id as its [correlationId], and the random source is
    not touched. *)
Theorem supplied_id_is_answered_and_published
        (raw event cid : JsValue) (w : World) :
  parse_at EventSchema [] raw = OK event ->
  connection w = Some Open ->
  truthy cid = true ->
  let r := WebhookController.receiveWebhook raw cid w in
  exists source stage receivedAt,
    outcome r = Return (JObj [("success", JBool true);
                              ("eventId", prop event "eventId");
                              ("correlationId", cid)])
    /\ published (world_after r) =
       (published w ++
          [wire (subject_of source stage)
                (envelope_of event cid (JStr receivedAt))])%list
    /\ prop (envelope_of event cid (JStr receivedAt)) "correlationId" = cid
    /\ draws (world_after r) = draws w.
Proof.
  intros Hparse Hconn Hcid r. subst r.
  destruct (validated_shape _ Hparse)
    as [Hout [source [stage [Hsrc [Hstage _]]]]].
  exists source, stage.
  open_world w Hconn. split_truthy cid Hcid.
  all: run_gateway; rewrite validateEvent_run, Hparse.
  all: destruct Hout as [Hout | Hout]; rewrite Hout; cbn;
    rewrite Hsrc, Hstage; cbn; eexists;
    (split; [reflexivity|]); (split; [unfold wire; reflexivity|]);
    (split; reflexivity).
Qed.

Lemma supplied_id_is_answered_and_published_witness :
  exists source stage receivedAt,
    outcome (WebhookController.receiveWebhook
               mockFacebookEvent (JStr "test-corr-123") world0)
    = Return (JObj [("success", JBool true);
                    ("eventId", prop mockFacebookEvent "eventId");
                    ("correlationId", JStr "test-corr-123")])
    /\ published (world_after
                    (WebhookController.receiveWebhook
                       mockFacebookEvent (JStr "test-corr-123") world0))
       = (published world0 ++
            [wire (subject_of source stage)
                  (envelope_of mockFacebookEvent (JStr "test-corr-123")
                               (JStr receivedAt))])%list
    /\ prop (envelope_of mockFacebookEvent (JStr "test-corr-123")
                         (JStr receivedAt)) "correlationId"
       = JStr "test-corr-123"
    /\ draws (world_after
                (WebhookController.receiveWebhook
                   mockFacebookEvent (JStr "test-corr-123") world0))
       = draws world0.
Proof.
  exact (@supplied_id_is_answered_and_published
           mockFacebookEvent mockFacebookEvent (JStr "test-corr-123") world0
           eq_refl eq_refl eq_refl).
Defined.

(** X5.  The envelope [{...event, correlationId, receivedAt}]: its
    [correlationId] and [receivedAt] are the two values given, also when
    the event has properties of these names, and every other property
    reads as it does on the event. *)
Theorem envelope_sets_two_fields_and_keeps_the_others
        (event c r : JsValue) (k : string) :
  k <> "correlationId" ->
  k <> "receivedAt" ->
  prop (GatewayMessagingRepository.envelope event c r) "correlationId" = c
  /\ prop (GatewayMessagingRepository.envelope event c r) "receivedAt" = r
  /\ prop (GatewayMessagingRepository.envelope event c r) k = prop event k.
Proof.
  intros Hc Hr.
  unfold GatewayMessagingRepository.envelope. cbn [prop].
  split; [|split].
  - rewrite obj_get_set_other by discriminate. apply obj_get_set_same.
  - apply obj_get_set_same.
  - rewrite !obj_get_set_other by assumption.
    destruct event; reflexivity.
Qed.

Lemma envelope_sets_two_fields_and_keeps_the_others_witness :
  prop (GatewayMessagingRepository.envelope
          message_A (JStr "corr-new") (JStr "2024-01-15T10:00:00.000Z"))
       "correlationId" = JStr "corr-new"
  /\ prop (GatewayMessagingRepository.envelope
             message_A (JStr "corr-new") (JStr "2024-01-15T10:00:00.000Z"))
          "receivedAt" = JStr "2024-01-15T10:00:00.000Z"
  /\ prop (GatewayMessagingRepository.envelope
             message_A (JStr "corr-new") (JStr "2024-01-15T10:00:00.000Z"))
          "eventId" = prop message_A "eventId".
Proof.
  assert (Hc : "eventId" <> "correlationId") by discriminate.
  assert (Hr : "eventId" <> "receivedAt") by discriminate.
  exact (@envelope_sets_two_fields_and_keeps_the_others
           message_A (JStr "corr-new") (JStr "2024-01-15T10:00:00.000Z")
           "eventId" Hc Hr).
Defined.

(** X6.  A request without a correlation id, for a valid event and with
    the broker connected: the id of the published envelope is generated
    from one clock reading and the first draw, the id of the response
    from a later clock reading and the next draw; the two ids differ
    whenever the two readings differ. *)
Theorem generated_response_id_is_not_the_published_one
        (raw event cid : JsValue) (w : World) :
  parse_at EventSchema [] raw = OK event ->
  connection w = Some Open ->
  truthy cid = false ->
  let r := WebhookController.receiveWebhook raw cid w in
  exists source stage receivedAt i j,
    let published_id := generated_id (clock_at w i) (draw_at w (draws w)) in
    let answered_id := generated_id (clock_at w j) (draw_at w (1 + draws w)) in
    clock_reads w <= i
    /\ i < j
    /\ j < clock_reads (world_after r)
    /\ outcome r = Return (JObj [("success", JBool true);
                                 ("eventId", prop event "eventId");
                                 ("correlationId", JStr answered_id)])
    /\ published (world_after r) =
       (published w ++
          [wire (subject_of source stage)
                (envelope_of event (JStr published_id) (JStr receivedAt))])%list
    /\ prop (envelope_of event (JStr published_id) (JStr receivedAt))
            "correlationId" = JStr published_id
    /\ (clock_at w i <> clock_at w j -> answered_id <> published_id).
Proof.
  intros Hparse Hconn Hcid r. subst r.
  destruct (validated_shape _ Hparse)
    as [Hout [source [stage [Hsrc [Hstage _]]]]].
  exists source, stage,
    (toISOString w (clock_at w (2 + clock_reads w))),
    (1 + clock_reads w), (4 + clock_reads w).
  cbv zeta.
  assert (Hdiffer :
            clock_at w (1 + clock_reads w) <> clock_at w (4 + clock_reads w) ->
            generated_id (clock_at w (4 + clock_reads w))
                         (draw_at w (1 + draws w))
            <> generated_id (clock_at w (1 + clock_reads w))
                            (draw_at w (draws w))).
  { intros Hne Heq. apply Hne. symmetry. exact (generated_id_inj Heq). }
  revert Hdiffer.
  open_world w Hconn. split_falsy cid Hcid.
  all: intros Hdiffer.
  all: run_gateway; rewrite validateEvent_run, Hparse.
  all: destruct Hout as [Hout | Hout]; rewrite Hout; cbn;
    rewrite Hsrc, Hstage; cbn;
    (split; [lia|]); (split; [lia|]); (split; [lia|]);
    (split; [reflexivity|]); (split; [unfold wire; reflexivity|]);
    (split; [reflexivity|]); exact Hdiffer.
Qed.

Lemma generated_response_id_is_not_the_published_one_witness :
  exists source stage receivedAt i j,
    clock_reads world0 <= i
    /\ i < j
    /\ outcome (WebhookController.receiveWebhook
                  mockFacebookEvent JUndefined world0)
       = Return (JObj [("success", JBool true);
                       ("eventId", prop mockFacebookEvent "eventId");
                       ("correlationId",
                        JStr (generated_id (clock_at world0 j)
                                           (draw_at world0 (1 + draws world0))))])
    /\ published (world_after
                    (WebhookController.receiveWebhook
                       mockFacebookEvent JUndefined world0))
       = (published world0 ++
            [wire (subject_of source stage)
                  (envelope_of mockFacebookEvent
                     (JStr (generated_id (clock_at world0 i)
                                         (draw_at world0 (draws world0))))
                     (JStr receivedAt))])%list
    /\ (clock_at world0 i <> clock_at world0 j ->
        generated_id (clock_at world0 j) (draw_at world0 (1 + draws world0))
        <> generated_id (clock_at world0 i) (draw_at world0 (draws world0))).
Proof.
  destruct (@generated_response_id_is_not_the_published_one
              mockFacebookEvent mockFacebookEvent JUndefined world0
              eq_refl eq_refl eq_refl)
    as [source [stage [receivedAt [i [j H]]]]].
  cbv zeta in H.
  destruct H as [Hi [Hij [_ [Hret [Hpub [_ Hdiffer]]]]]].
  exists source, stage, receivedAt, i, j.
  split; [exact Hi|]. split; [exact Hij|]. split; [exact Hret|].
  split; [exact Hpub | exact Hdiffer].
Defined.

(** ** Validation *)

(** X7.  The dedicated validators look at the source first of all: an
    input whose [source] is not [facebook] is rejected by
    [validateFacebookEvent] with a [BadRequestException] that begins
    [Invalid Facebook event format: ], and likewise for [tiktok] and
    [validateTiktokEvent]; unlike the combined validator they log nothing
    and leave the world as it is. *)
Theorem dedicated_validator_rejects_other_source
        (f : NumericField) (v : JsValue) (w : World) :
  prop v "source" <> JStr (source_of f) ->
  exists issues,
    validator_of f v w =
    (Throw (BadRequestException (format_of f ++ message (ZodError issues))), w).
Proof.
  intros Hsource. rewrite dedicated_validator_run.
  destruct (parse_at (schema_of f) [] v) as [out|issues] eqn:Hparse.
  - exfalso. apply Hsource. apply source_of_accepted.
    unfold accepts. rewrite Hparse. reflexivity.
  - exists issues. reflexivity.
Qed.

Lemma dedicated_validator_rejects_other_source_witness :
  exists issues,
    ValidationService.validateFacebookEvent mockTiktokEvent world0 =
    (Throw (BadRequestException
              ("Invalid Facebook event format: " ++ message (ZodError issues))),
     world0).
Proof.
  assert (H : prop mockTiktokEvent "source" <> JStr (source_of age))
    by discriminate.
  exact (@dedicated_validator_rejects_other_source age mockTiktokEvent world0 H).
Defined.

(** X8.  The [source] property decides which schema the combined schema
    applies: an input whose source is [facebook] is accepted exactly when
    the Facebook schema accepts it, one whose source is [tiktok] exactly
    when the TikTok schema does, and every other input (another source, a
    source that is no string, or no object at all) is rejected. *)
Theorem source_decides_the_schema (v : JsValue) :
  accepts EventSchema v =
  match prop v "source" with
  | JStr source =>
      if String.eqb source "facebook" then accepts FacebookEventSchema v
      else if String.eqb source "tiktok" then accepts TiktokEventSchema v
      else false
  | _ => false
  end.
Proof.
  pose proof (source_of_accepted age v) as Hfb.
  pose proof (source_of_accepted followers v) as Htk.
  cbn [schema_of source_of] in Hfb, Htk.
  unfold accepts in *. rewrite union_parse.
  destruct (parse_at FacebookEventSchema [] v) as [fb|fbi].
  - rewrite (Hfb eq_refl). reflexivity.
  - destruct (parse_at TiktokEventSchema [] v) as [tk|tki].
    + rewrite (Htk eq_refl). reflexivity.
    + destruct (prop v "source") as [| | | |s| |]; try reflexivity.
      destruct (String.eqb s "facebook"); [reflexivity|].
      destruct (String.eqb s "tiktok"); reflexivity.
Qed.

Ltac split_options :=
  repeat match goal with
         | I : In _ (_ :: _) |- _ => destruct I as [I|I]; [subst|]
         | I : In _ [] |- _ => destruct I
         end.

Ltac forget_parses :=
  repeat match goal with
         | H : parse_at _ _ _ = _ |- _ => clear H
         | H : facebook_fields _ = _ |- _ => clear H
         | H : tiktok_fields _ = _ |- _ => clear H
         end.

Lemma facebook_revalidates v out :
  parse_at FacebookEventSchema [] v = OK out ->
  parse_at FacebookEventSchema [] out = OK out.
Proof.
  intros H. destruct (facebook_accepted _ H) as [Hout _]. subst out.
  unfold FacebookEventSchema in H.
  key_facts.
  unfold facebook_fields, engagement_field, has.
  read_fields. forget_parses. split_options.
  all: match goal with
       | |- context [obj_has ?data "engagement"] =>
           destruct (obj_get data "engagement");
           try destruct (obj_has data "engagement")
       end; reflexivity.
Qed.

Lemma tiktok_revalidates v out :
  parse_at TiktokEventSchema [] v = OK out ->
  parse_at TiktokEventSchema [] out = OK out.
Proof.
  intros H. destruct (tiktok_accepted _ H) as [Hout _]. subst out.
  unfold TiktokEventSchema in H.
  key_facts.
  unfold tiktok_fields, engagement_field, has.
  read_fields. forget_parses. split_options.
  all: match goal with
       | |- context [obj_has ?data "engagement"] =>
           destruct (obj_get data "engagement");
           try destruct (obj_has data "engagement")
       end; reflexivity.
Qed.

(** X9.  Validation is idempotent: what the combined validator returns is
    itself accepted by the combined validator, which returns it
    unchanged. *)
Theorem validation_is_idempotent (v out : JsValue) (w w' : World) :
  outcome (ValidationService.validateEvent v w) = Return out ->
  outcome (ValidationService.validateEvent out w') = Return out.
Proof.
  rewrite !validateEvent_run, !union_parse.
  destruct (parse_at FacebookEventSchema [] v) as [fb|] eqn:Hfb.
  - intros H. inversion H. subst fb.
    rewrite (facebook_revalidates _ Hfb). reflexivity.
  - destruct (parse_at TiktokEventSchema [] v) as [tk|] eqn:Htk;
      [|discriminate].
    intros H. inversion H. subst tk.
    rewrite (tiktok_revalidates _ Htk).
    destruct (parse_at FacebookEventSchema [] out) as [again|] eqn:Hagain;
      [|reflexivity].
    exfalso.
    destruct (facebook_accepted _ Hagain) as [_ [Hsource _]].
    destruct (tiktok_accepted _ (tiktok_revalidates _ Htk))
      as [_ [Hsource' _]].
    rewrite Hsource in Hsource'. discriminate.
Qed.

Lemma validation_is_idempotent_witness :
  outcome (ValidationService.validateEvent
             (facebook_fields facebookEvent_with_campaign) world0)
  = Return (facebook_fields facebookEvent_with_campaign).
Proof.
  exact (@validation_is_idempotent
           facebookEvent_with_campaign
           (facebook_fields facebookEvent_with_campaign) world0 world0
           eq_refl).
Defined.

(** ** The collector *)

(** X10.  A collector of type [facebook] or [tiktok] that starts while the
    broker connection is absent or closed: start-up fails with the error
    of the connection, no subscription is taken, and the failure is
    logged by the collector service. *)
Theorem collector_startup_fails_without_broker (source : string) (w : World) :
  In source ["facebook"; "tiktok"] ->
  COLLECTOR_TYPE w = Some source ->
  connection w <> Some Open ->
  let e := connection_error (connection w) in
  let r := CollectorService.onModuleInit w in
  outcome r = Throw e
  /\ subscriptions (world_after r) = subscriptions w
  /\ In (mkLog ERROR "CollectorService" "Failed to initialize collector service"
               (Some (stack e)) [])
        (log (world_after r)).
Proof.
  intros Hsource Htype Hconn e r. subst r e.
  destruct (initializeStreams_run
              ["events.facebook.top"; "events.facebook.bottom";
               "events.tiktok.top"; "events.tiktok.bottom"] w)
    as [w1 [Hrun [Hc [Hs Ht]]]].
  clear Ht.
  unfold CollectorService.onModuleInit, try_catch, bind, read.
  cbv beta iota. rewrite Hrun.
  unfold collectorType. rewrite Htype.
  rewrite <- Hc in *. rewrite <- Hs. clear Hrun Hc Hs Htype w.
  destruct w1 as [? ? ? ? ? ? ? ? conn ? ? ? ? ? ?].
  cbn [connection subscriptions] in *.
  destruct conn as [[|]|]; [contradiction| |].
  all: destruct Hsource as [<- | [<- | []]].
  all: unfold CollectorService.subscribeToFacebookEvents,
         CollectorService.subscribeToTiktokEvents,
         CollectorMessagingRepository.subscribe, NatsService.subscribe,
         NatsService.getConnection, LogMethod, try_catch, bind.
  all: cbn; (split; [reflexivity|]); (split; [reflexivity|]).
  all: apply in_or_app; right; left; reflexivity.
Qed.

Lemma collector_startup_fails_without_broker_witness :
  outcome (CollectorService.onModuleInit (collector_world (Some "tiktok") None))
  = Throw (Error "NATS connection not established")
  /\ subscriptions
       (world_after
          (CollectorService.onModuleInit (collector_world (Some "tiktok") None)))
     = [].
Proof.
  assert (Hconn : connection (collector_world (Some "tiktok") None) <> Some Open)
    by discriminate.
  destruct (@collector_startup_fails_without_broker
              "tiktok" (collector_world (Some "tiktok") None)
              (or_intror (or_introl eq_refl)) eq_refl Hconn)
    as [Hout [Hsub _]].
  split; [exact Hout | exact Hsub].
Defined.

(** X11.  A delivery that is no JSON text, or whose JSON text is [null],
    never reaches the handler, whatever the handler is: the first is
    logged by the NATS service, the second by the messaging repository
    (with the [TypeError] of reading [correlationId]), and the
    subscription goes on with the next message from a world that differs
    by that log line only. *)
Theorem malformed_delivery_is_dropped
        (subject : string) (handler : JsValue -> JsValue -> M unit)
        (text : string) (rest : list NatsService.Msg) (w : World) :
  CollectorMessagingRepository.consume
    subject handler (NatsService.Garbage text :: rest) w
  = CollectorMessagingRepository.consume subject handler rest
      (set_log (log w ++
                  [mkLog ERROR "NatsService"
                         ("Error processing message from " ++ subject)
                         (Some (stack (SyntaxError
                                         ("Unexpected token in JSON: " ++ text))))
                         []]) w)
  /\ CollectorMessagingRepository.consume
       subject handler (NatsService.Json JNull :: rest) w
     = CollectorMessagingRepository.consume subject handler rest
         (failure_logged
            subject JNull
            (TypeError ("Cannot read properties of null or undefined "
                          ++ "(reading 'correlationId')"))
            w).
Proof. split; reflexivity. Qed.

(** X12.  The event processing service and the persistence sink, for an
    event that is not [null]: the sink is called once, after the
    [accepted] sample.  When the sink returns, the service returns and
    adds one [processed] sample and one duration (clock after the sink
    minus clock at entry).  When the sink throws, the service throws the
    same error and adds one [failed] sample whose [error] label is the
    error's message. *)
Theorem processing_outcome_follows_the_sink
        (saveEvent : JsValue -> JsValue -> M unit)
        (event correlationId : JsValue) (w : World) :
  is_nullish event = false ->
  let type := collectorType w in
  let saved := saveEvent event correlationId (before_save event correlationId w) in
  let r := EventProcessingService_processEvent saveEvent event correlationId w in
  match outcome saved with
  | Return _ =>
      outcome r = Return tt
      /\ samples (world_after r) =
         (samples (world_after saved) ++
            [Counted processed 1 (collector_labels type event);
             Observed (Z.of_N (clock_at (world_after saved)
                                        (clock_reads (world_after saved)))
                       - Z.of_N (clock_at w (clock_reads w)))
                      [("collector_type", JStr type);
                       ("source", prop event "source");
                       ("event_type", prop event "eventType")]])%list
  | Throw e =>
      outcome r = Throw e
      /\ samples (world_after r) =
         (samples (world_after saved) ++
            [Counted failed 1
               [("collector_type", JStr type);
                ("source", prop event "source");
                ("event_type", prop event "eventType");
                ("error", JStr (message e))]])%list
  end.
Proof.
  intros Hevent type saved r. subst r saved type.
  destruct event; try discriminate.
  all: unfold EventProcessingService_processEvent, LogMethod, try_catch, bind,
         before_save.
  all: unfold collectorType; destruct w; cbn.
  all: change ("Method " ++ "processEvent" ++ " called")
         with "Method processEvent called".
  all: rewrite <- app_assoc; cbn [app].
  all: destruct (saveEvent _ _ _) as [[[]|e] w1]; cbn;
    (split; [reflexivity|]); rewrite <- ?app_assoc; reflexivity.
Qed.

Lemma processing_outcome_follows_the_sink_witness :
  outcome (EventProcessingService_processEvent
             failing_sink message_A (JStr "corr-A")
             (collector_world (Some "facebook") (Some Open)))
  = Throw (Error "Database connection failed").
Proof.
  exact (proj1 (@processing_outcome_follows_the_sink
                  failing_sink message_A (JStr "corr-A")
                  (collector_world (Some "facebook") (Some Open)) eq_refl)).
Defined.

Lemma count_app kind a b :
  count kind (a ++ b) = count kind a + count kind b.
Proof. unfold count. rewrite filter_app, List.length_app. reflexivity. Qed.

Lemma adds_nothing {A} (c : M A) w :
  samples (world_after (c w)) = samples w -> adds_balanced c w.
Proof.
  intros H. exists []. rewrite app_nil_r. split; [exact H | reflexivity].
Qed.

Lemma processEvent_counts sink event correlationId w :
  keeps_samples sink ->
  is_nullish event = false ->
  adds_balanced (EventProcessingService_processEvent sink event correlationId) w.
Proof.
  intros Hkeep Hevent. unfold adds_balanced.
  destruct event; try discriminate.
  all: unfold EventProcessingService_processEvent, LogMethod, try_catch, bind.
  all: destruct w; cbn.
  all: match goal with
       | |- context [match ?f ?a ?b ?c with _ => _ end] =>
           pose proof (Hkeep a b c) as Hs;
           destruct (f a b c) as [[[]|e] w1]
       end.
  all: cbn in Hs |- *; rewrite Hs.
  all: rewrite <- ?app_assoc; eexists; (split; [reflexivity|]); reflexivity.
Qed.

Arguments EventProcessingService_processEvent : simpl never.

Lemma handlers_contained sink handler :
  keeps_samples sink ->
  handler = handleFacebookEvent sink \/ handler = handleTiktokEvent sink ->
  contained handler.
Proof.
  intros Hkeep Hhandler event correlationId w Hevent. unfold adds_balanced.
  destruct event; try discriminate.
  all: destruct Hhandler as [-> | ->].
  all: unfold handleFacebookEvent, handleTiktokEvent,
         processFacebookEvent, processTiktokEvent, LogMethod, try_catch, bind.
  all: destruct w; cbn.
  all: match goal with
       | |- context [EventProcessingService_processEvent ?s ?e ?c ?w0] =>
           destruct (@processEvent_counts s e c w0 Hkeep eq_refl)
             as [delta [Hs Hb]];
           destruct (EventProcessingService_processEvent s e c w0)
             as [[[]|err] w1]
       end.
  all: cbn in Hs |- *; (split; [reflexivity|]); exists delta;
    (split; [exact Hs | exact Hb]).
Qed.

Lemma on_message_counts subject handler msg w :
  contained handler ->
  let c := NatsService.on_message
             subject (CollectorMessagingRepository.callback subject handler)
             msg in
  outcome (c w) = Return tt /\ adds_balanced c w.
Proof.
  intros Hcontained c. subst c.
  destruct msg as [data|text];
    [|split; [reflexivity|apply adds_nothing; reflexivity]].
  destruct data;
    try (split; [reflexivity|apply adds_nothing; reflexivity]).
  all: unfold adds_balanced, NatsService.on_message,
         CollectorMessagingRepository.callback, try_catch, bind.
  all: destruct w; cbn.
  all: match goal with
       | |- context [match ?h ?e ?c ?w0 with _ => _ end] =>
           destruct (@Hcontained e c w0 eq_refl) as [Hret [delta [Hs Hb]]];
           destruct (h e c w0) as [[[]|err] w1]
       end.
  all: cbn in Hret, Hs |- *; try discriminate.
  all: (split; [reflexivity|]); exists delta; (split; [exact Hs | exact Hb]).
Qed.

Lemma failing_sink_keeps_samples : keeps_samples failing_sink.
Proof.
  intros event correlationId w. unfold failing_sink, bind, get, lift, member.
  destruct (is_nullish event); [reflexivity|]. cbn.
  repeat match goal with
         | |- context [match ?x with _ => _ end] => destruct x
         end; reflexivity.
Qed.

(** X13.  The counters of a collector balance.  With a sink that does not
    touch the metrics, whatever it stores or throws, a subscription
    handled by [handleFacebookEvent] or [handleTiktokEvent] ends normally
    on every list of deliveries (JSON or not, [null] or not), and among
    the samples it added there are as many [accepted] as [processed] and
    [failed] together: every event taken in is counted once as processed
    or once as failed. *)
Theorem collector_counts_balance
        (sink handler : JsValue -> JsValue -> M unit)
        (subject : string) (msgs : list NatsService.Msg) (w : World) :
  keeps_samples sink ->
  handler = handleFacebookEvent sink \/ handler = handleTiktokEvent sink ->
  let r := CollectorMessagingRepository.consume subject handler msgs w in
  outcome r = Return tt
  /\ exists delta,
      samples (world_after r) = (samples w ++ delta)%list
      /\ count accepted delta = count processed delta + count failed delta.
Proof.
  intros Hkeep Hhandler r. subst r.
  pose proof (handlers_contained Hkeep Hhandler) as Hcontained.
  unfold CollectorMessagingRepository.consume.
  revert w. induction msgs as [|msg rest IH]; intros w.
  - split; [reflexivity|]. exists []. rewrite app_nil_r.
    split; reflexivity.
  - destruct (@on_message_counts subject handler msg w Hcontained)
      as [Hret [d1 [Hs1 Hb1]]].
    cbn [NatsService.message_loop]. unfold bind.
    destruct (NatsService.on_message
                subject (CollectorMessagingRepository.callback subject handler)
                msg w) as [[[]|err] w1]; cbn in Hret, Hs1; [|discriminate].
    destruct (IH w1) as [Hret2 [d2 [Hs2 Hb2]]].
    split; [exact Hret2|].
    exists (d1 ++ d2)%list. rewrite Hs2, Hs1, <- app_assoc.
    split; [reflexivity|].
    unfold balanced in *. rewrite !count_app. lia.
Qed.

Lemma collector_counts_balance_witness :
  exists delta,
    samples
      (world_after
         (CollectorMessagingRepository.consume
            "events.facebook.top" (handleFacebookEvent failing_sink)
            [NatsService.Json message_A; NatsService.Garbage "{";
             NatsService.Json message_B]
            (collector_world (Some "facebook") (Some Open))))
    = ([] ++ delta)%list
    /\ count accepted delta = count processed delta + count failed delta.
Proof.
  exact (proj2 (@collector_counts_balance
                  failing_sink (handleFacebookEvent failing_sink)
                  "events.facebook.top"
                  [NatsService.Json message_A; NatsService.Garbage "{";
                   NatsService.Json message_B]
                  (collector_world (Some "facebook") (Some Open))
                  failing_sink_keeps_samples (or_introl eq_refl))).
Defined.

(** ** The NATS service *)

(** X14.  [createStream] returns exactly when JetStream is available and
    the API either creates the stream or answers with the error code
    10058 (the stream exists already); the stream is recorded only when
    it was created; and [ensureStream] returns in every case. *)
Theorem createStream_outcome
        (streamName : string) (subjects : list string) (w : World) :
  let r := NatsService.createStream streamName subjects w in
  (outcome r = Return tt <->
   jetStream w = true
   /\ (streams_add w streamName subjects = None
       \/ exists e, streams_add w streamName subjects = Some e
                    /\ code e = Some 10058%Z))
  /\ streams (world_after r) =
     (if jetStream w
      then match streams_add w streamName subjects with
           | None => streams w ++ [(streamName, subjects)]
           | Some _ => streams w
           end
      else streams w)%list
  /\ outcome (NatsService.ensureStream streamName subjects w) = Return tt.
Proof.
  intros r. subst r.
  destruct w as [? ? ? ? ? ? ? ? ? js add ? ? ? ?].
  unfold NatsService.ensureStream, NatsService.createStream,
    NatsService.getJetStream, try_catch, bind, read.
  destruct js; cbn.
  - destruct (add streamName subjects) as [[nm msg [c|]]|]; cbn.
    + destruct (Z.eqb c 10058) eqn:E; cbn.
      * apply Z.eqb_eq in E. subst c.
        repeat split; eauto.
      * apply Z.eqb_neq in E.
        split; [|split; reflexivity].
        split; [discriminate|].
        intros [_ [H | [e [H Hc]]]]; [discriminate|].
        inversion H; subst e. cbn in Hc. inversion Hc. contradiction.
    + split; [|split; reflexivity].
      split; [discriminate|].
      intros [_ [H | [e [H Hc]]]]; [discriminate|].
      inversion H; subst e. discriminate.
    + repeat split; auto.
  - split; [|split; reflexivity].
    split; [discriminate|]. intros [H _]. discriminate.
Qed.

(** X15.  [isConnected] answers [false] in every state of the service,
    connected or not: [connection.closed()] is a promise, and a promise is
    truthy.  So [checkConnection] of the messaging repositories returns
    [false] and changes nothing, and the readiness check reports the
    status [down] for NATS. *)
Theorem readiness_reports_nats_down (w : World) :
  outcome (NatsService_isConnected w) = Return false
  /\ MessagingRepository_checkConnection w = (Return false, w)
  /\ exists app t2,
      outcome (HealthController_checkReadiness w) =
      Return [app;
              JObj [("nats", JObj [("status", JStr "down");
                                   ("timestamp", JStr t2)])]].
Proof.
  unfold HealthController_checkReadiness, MessagingRepository_checkConnection,
    NatsService_isConnected, new_Date_toISOString, try_catch, bind, read.
  destruct w as [? ? ? ? ? ? ? ? conn ? ? ? ? ? ?]. cbn.
  destruct conn as [status|];
    (split; [reflexivity|]); (split; [reflexivity|]);
    eexists; eexists; reflexivity.
Qed.

(** ** The structured logger *)

Lemma logData_field lg ts lvl text props k :
  distinct_keys props ->
  prop (logData lg ts lvl text (JObj props)) k =
  if obj_has props k then obj_get props k
  else prop (logData lg ts lvl text JUndefined) k.
Proof.
  intros Hkeys. unfold logData.
  cbn [prop spread opt_member is_nullish spread_onto].
  rewrite (spread_onto_get _ _ Hkeys).
  destruct (obj_has props k) eqn:Hhas; [reflexivity|].
  cbn [obj_get].
  destruct (String.eqb k "timestamp"); [reflexivity|].
  destruct (String.eqb k "level"); [reflexivity|].
  destruct (String.eqb k "service"); [reflexivity|].
  destruct (String.eqb k "correlationId") eqn:E; [|reflexivity].
  apply String.eqb_eq in E. subst k.
  rewrite (obj_has_false_get _ _ Hhas). reflexivity.
Qed.

(** X16.  The object a log line is made of, for a context object: every
    property of the context is in the line with the context's value, also
    where it replaces a field of the line itself ([timestamp], [level],
    [service], [correlationId], [message]); so a context that has the
    key [correlationId] decides the line's id even when its value is
    [undefined].  The other fields are those of a line without context;
    the logger's own id is the line's id when the context has no
    [correlationId]. *)
Theorem context_overrides_the_log_line
        (lg : StructuredLogger) (ts lvl text : string)
        (props : list (string * JsValue)) (k : string) :
  distinct_keys props ->
  let line := logData lg ts lvl text (JObj props) in
  (obj_has props k = true -> prop line k = obj_get props k)
  /\ (obj_has props k = false ->
      prop line k = prop (logData lg ts lvl text JUndefined) k)
  /\ (obj_has props "correlationId" = false ->
      prop line "correlationId" = JStr (ownCorrelationId lg)).
Proof.
  intros Hkeys line. subst line.
  split; [|split]; intros Hhas; rewrite (logData_field _ _ _ _ _ Hkeys), Hhas;
    reflexivity.
Qed.

Lemma context_overrides_the_log_line_witness :
  prop (logData (mkLogger "WebhookService" "own-id") "2024-01-15T10:00:00.000Z"
                "info" "Event processed successfully"
                (JObj [("correlationId", JUndefined);
                       ("eventId", JStr "fb-event-123")]))
       "correlationId"
  = JUndefined.
Proof.
  assert (Hkeys : distinct_keys [("correlationId", JUndefined);
                                 ("eventId", JStr "fb-event-123")]).
  { repeat constructor; cbn; intuition discriminate. }
  exact (proj1 (@context_overrides_the_log_line
                  (mkLogger "WebhookService" "own-id")
                  "2024-01-15T10:00:00.000Z" "info"
                  "Event processed successfully"
                  [("correlationId", JUndefined);
                   ("eventId", JStr "fb-event-123")]
                  "correlationId" Hkeys) eq_refl).
Defined.

(** X17.  An error line: its [error] field is [true] and its [trace] field
    is the trace given, whatever the context holds under these two keys
    (the services pass the error's message as [error]; it does not reach
    the line); its level is [ERROR] unless the context has a [level]. *)
Theorem error_line_flags
        (lg : StructuredLogger) (ts text : string)
        (props : list (string * JsValue)) (trace : JsValue) :
  distinct_keys props ->
  let line := logData lg ts "error" text (errorContext (JObj props) trace) in
  prop line "error" = JBool true
  /\ prop line "trace" = trace
  /\ (obj_has props "level" = false -> prop line "level" = JStr "ERROR").
Proof.
  intros Hkeys line. subst line. unfold errorContext. cbn [spread].
  assert (Hkeys' : distinct_keys
                     (obj_set (obj_set props "trace" trace) "error" (JBool true)))
    by (apply obj_set_distinct, obj_set_distinct, Hkeys).
  split; [|split]; [| |intros Hlevel];
    rewrite (logData_field _ _ _ _ _ Hkeys').
  - rewrite obj_has_set_same. apply obj_get_set_same.
  - rewrite obj_has_set_other, obj_has_set_same by discriminate.
    rewrite obj_get_set_other by discriminate. apply obj_get_set_same.
  - rewrite !obj_has_set_other by discriminate. rewrite Hlevel. reflexivity.
Qed.

Lemma error_line_flags_witness :
  prop (logData (mkLogger "MessagingRepository" "own-id")
                "2024-01-15T10:00:00.000Z" "error"
                "Failed to publish event to stream"
                (errorContext
                   (JObj [("eventId", JStr "fb-event-123");
                          ("error", JStr "CONNECTION_CLOSED")])
                   (JStr "NatsError: CONNECTION_CLOSED")))
       "error"
  = JBool true.
Proof.
  assert (Hkeys : distinct_keys [("eventId", JStr "fb-event-123");
                                 ("error", JStr "CONNECTION_CLOSED")]).
  { repeat constructor; cbn; intuition discriminate. }
  exact (proj1 (@error_line_flags
                  (mkLogger "MessagingRepository" "own-id")
                  "2024-01-15T10:00:00.000Z"
                  "Failed to publish event to stream"
                  [("eventId", JStr "fb-event-123");
                   ("error", JStr "CONNECTION_CLOSED")]
                  (JStr "NatsError: CONNECTION_CLOSED") Hkeys)).
Defined.

(** ** From the gateway to the collectors *)

(** X18.  Every event the gateway publishes goes to one of the four
    subjects of the stream, and that subject is one the collector of the
    event's own source subscribes to, and none the collector of the other
    source subscribes to. *)
Theorem published_event_reaches_its_collector
        (raw event cid : JsValue) (w : World) :
  parse_at EventSchema [] raw = OK event ->
  connection w = Some Open ->
  let r := WebhookController.receiveWebhook raw cid w in
  exists subject body source,
    published (world_after r) = (published w ++ [(subject, body)])%list
    /\ prop event "source" = JStr source
    /\ In subject stream_subjects
    /\ In subject (subjects_of_collector source)
    /\ (forall other, In subject (subjects_of_collector other) ->
                      In other ["facebook"; "tiktok"] -> other = source).
Proof.
  intros Hparse Hconn r. subst r.
  destruct (validated_shape _ Hparse)
    as [Hout [source [stage [Hsrc [Hstage [Isrc Istage]]]]]].
  assert (Hpub : exists body,
             published (world_after (WebhookController.receiveWebhook raw cid w))
             = (published w ++ [(subject_of source stage, body)])%list
             /\ prop event "source" = JStr source).
  { destruct (truthy cid) eqn:Hcid.
    - destruct (receiveWebhook_echoes raw cid w Hparse Hconn Hcid)
        as [source' [stage' [Hs [Hg [_ Hp]]]]].
      destruct Hout as [Hout | Hout]; rewrite Hout in Hs, Hg;
        cbn in Hs, Hg; rewrite Hsrc in Hs; rewrite Hstage in Hg;
        inversion Hs; inversion Hg; subst source' stage';
        (eexists; split; [exact Hp|]); rewrite Hout; exact Hsrc.
    - destruct (receiveWebhook_generates_twice raw cid w Hparse Hconn Hcid)
        as [source' [stage' [Hs [Hg [_ Hp]]]]].
      destruct Hout as [Hout | Hout]; rewrite Hout in Hs, Hg;
        cbn in Hs, Hg; rewrite Hsrc in Hs; rewrite Hstage in Hg;
        inversion Hs; inversion Hg; subst source' stage';
        (eexists; split; [exact Hp|]); rewrite Hout; exact Hsrc. }
  destruct Hpub as [body [Hp Hs]].
  exists (subject_of source stage), body, source.
  split; [exact Hp|]. split; [exact Hs|].
  destruct Isrc as [<- | [<- | []]]; destruct Istage as [<- | [<- | []]].
  all: split; [cbn; tauto|].
  all: split; [vm_compute; tauto|].
  all: intros other Hin [<- | [<- | []]]; try reflexivity.
  all: exfalso; vm_compute in Hin;
    repeat match goal with
           | H : _ \/ _ |- _ => destruct H as [H|H]
           end; try discriminate; contradiction.
Qed.

Lemma published_event_reaches_its_collector_witness :
  exists subject body source,
    published (world_after
                 (WebhookController.receiveWebhook
                    mockTiktokEvent (JStr "test-corr-456") world0))
    = ([] ++ [(subject, body)])%list
    /\ prop mockTiktokEvent "source" = JStr source
    /\ In subject stream_subjects
    /\ In subject (subjects_of_collector source)
    /\ (forall other, In subject (subjects_of_collector other) ->
                      In other ["facebook"; "tiktok"] -> other = source).
Proof.
  exact (@published_event_reaches_its_collector
           mockTiktokEvent mockTiktokEvent (JStr "test-corr-456") world0
           eq_refl eq_refl).
Defined.

(** ** The row of an event *)

Lemma js_or_undefined_r a b : js_or (js_or a JUndefined) b = js_or a b.
Proof. unfold js_or. destruct (truthy a) eqn:E; [rewrite E|]; reflexivity. Qed.

Arguments js_or : simpl never.

Ltac run_repository :=
  unfold EventRepository_saveEvent, LogMethod, try_catch, bind,
    eventRecord_data, JSON_parse_stringify, JSON_stringify;
  cbn.




